(** * CivicSentinel: the zone-based intrusion detection engine

    A shallow embedding of the engine of the CivicSentinel API
    ([app/services/zone_service.py], [app/services/yolo_service.py],
    [app/db/crud.py], [app/api/zones.py], [app/api/detect.py],
    [app/models/schemas.py]) and of the ray-casting routine of the demo
    ([detection-demo/detect_with_zones_complete.py]), with the properties
    of its specification.

    Conventions of the embedding.
    - A Python [float] is an exact rational ([Q]); rounding, infinities
      and NaN are outside the model, but not the [OverflowError] of
      [float] on an integer beyond the range of the floats.  Python's
      [<], [<=], [==] on floats are [py_lt], [py_le], [py_eq].
    - A Python [str] is a [string], one character per code point.
    - Code that may raise runs in [Outcome]; code that also calls the
      [logging] module runs in [Eff], which records the calls in order.
    - The libraries the engine calls but does not contain ([json], the
      [float] constructor on strings, Shapely) are the fields of the
      class [Runtime]; every theorem holds for every implementation. *)

From Stdlib Require Import QArith Qminmax Lqa Ascii String.
From stdpp Require Import base option list strings pretty.

Local Open Scope Z_scope.

(** ** Numbers *)

Definition py_le (a b : Q) : bool := Qle_bool a b.
Definition py_lt (a b : Q) : bool := negb (Qle_bool b a).
Definition py_eq (a b : Q) : bool := Qeq_bool a b.
Definition py_ne (a b : Q) : bool := negb (Qeq_bool a b).

(** The least magnitude of an integer that [float] refuses: the integers
    from [2 ** 1024 - 2 ** 970] on round to [2 ** 1024], which is no
    float, and [float] raises [OverflowError] for them. *)
Definition float_overflow : Z := 2 ^ 1024 - 2 ^ 970.

(** ** Exceptions and logging *)

Inductive PyExc : Set :=
  | ValidationError
  | JSONDecodeError
  | TypeError
  | ValueError
  | IndexError
  | UnboundLocalError
  | ZeroDivisionError
  | OverflowError
  | LibraryError.

Inductive Outcome (A : Type) : Type :=
  | Return (a : A)
  | Raise (e : PyExc).
Arguments Return {A} a.
Arguments Raise {A} e.

#[export] Instance Outcome_ret : MRet Outcome := λ A a, Return a.
#[export] Instance Outcome_bind : MBind Outcome := λ A B k m,
  match m with
  | Return a => k a
  | Raise e => Raise e
  end.

(** One constructor per [logger] call of the engine; the text of an
    exception interpolated in a message is kept as the exception. *)
Inductive LogRecord : Type :=
  | Debug_no_zones
  | Error_parse_coordinates (e : PyExc)
  | Warning_polygon_points
  | Error_point_in_polygon (e : PyExc)
  | Warning_invalid_coordinates (zone_id : Z)
  | Info_zone_violation (zone_name : string) (confidence : Q)
  | Error_model_not_loaded
  | Debug_rejected_low_confidence (confidence : Q)
  | Debug_rejected_too_small (width height : Q)
  | Info_detected (kept total rejected_low_conf rejected_small : nat)
  | Error_during_detection (e : PyExc).

Definition Eff (A : Type) : Type := (Outcome A * list LogRecord)%type.

#[export] Instance Eff_ret : MRet Eff := λ A a, (Return a, []).
#[export] Instance Eff_bind : MBind Eff := λ A B k m,
  match m with
  | (Return a, l1) => let '(r, l2) := k a in (r, l1 ++ l2)
  | (Raise e, l1) => (Raise e, l1)
  end.

Definition log (r : LogRecord) : Eff unit := (Return tt, [r]).

Definition lift {A} (m : Outcome A) : Eff A := (m, []).

(** [try: m  except Exception as e: h e] *)
Definition try_except {A} (m : Eff A) (h : PyExc → Eff A) : Eff A :=
  match m with
  | (Return a, l) => (Return a, l)
  | (Raise e, l) => let '(r, l') := h e in (r, l ++ l')
  end.

(** [for x in xs: s = body s x], the loop variable being the state. *)
Fixpoint for_each {A S} (xs : list A) (body : S → A → Eff S) (s : S) : Eff S :=
  match xs with
  | [] => mret s
  | x :: xs' => s' ← body s x; for_each xs' body s'
  end.

Definition result {A} (m : Eff A) : Outcome A := m.1.
Definition logged {A} (m : Eff A) : list LogRecord := m.2.

(** ** Values decoded from JSON *)

#[warnings="-register-all"]
Inductive pyval : Type :=
  | PyNone
  | PyBool (b : bool)
  | PyInt (n : Z)
  | PyFloat (q : Q)
  | PyStr (s : string)
  | PyList (items : list pyval)
  | PyDict (items : list (string * pyval)).

Fixpoint chars (s : string) : list string :=
  match s with
  | EmptyString => []
  | String c s' => String c EmptyString :: chars s'
  end.

(** [iter(v)]: lists yield their items, strings their characters,
    dictionaries their keys; the other values are not iterable. *)
Definition py_iter (v : pyval) : Outcome (list pyval) :=
  match v with
  | PyList items => Return items
  | PyStr s => Return (PyStr <$> chars s)
  | PyDict items => Return ((λ kv, PyStr kv.1) <$> items)
  | PyNone | PyBool _ | PyInt _ | PyFloat _ => Raise TypeError
  end.

(** [x, y = v] *)
Definition py_unpack2 (v : pyval) : Outcome (pyval * pyval) :=
  items ← py_iter v;
  match items with
  | [x; y] => Return (x, y)
  | _ => Raise ValueError
  end.

(** ** The libraries outside the repository *)

Class Runtime : Type := {
  (** [json.loads(s)] *)
  json_loads : string → Outcome pyval;
  (** [float(s)] for a [str] *)
  float_of_str : string → Outcome Q;
  (** [Polygon(coords).contains(Point(p[0], p[1]))] *)
  shapely_contains : list (Q * Q) → Q * Q → Outcome bool;
  (** [json.dumps(coordinates)] for a list of lists of floats *)
  json_dumps : list (list Q) → string;
  (** pydantic's validation of a decoded value against [List[List[float]]] *)
  validate_coordinates : pyval → Outcome (list (list Q));
}.

(** ** Schemas ([app/models/schemas.py]) and rows ([app/models/database.py]) *)

Module BoundingBox.
Record t : Type := mk { x1 : Q; y1 : Q; x2 : Q; y2 : Q }.
End BoundingBox.

Module Detection.
Record t : Type := mk { class_name : string; confidence : Q; bbox : BoundingBox.t }.

(** [confidence: float = Field(..., ge=0.0, le=1.0)] *)
Definition valid (d : t) : Prop := (0 <= confidence d)%Q ∧ (confidence d <= 1)%Q.

Definition make (class_name : string) (confidence : Q) (bbox : BoundingBox.t) : Outcome t :=
  if py_le 0 confidence && py_le confidence 1
  then Return (mk class_name confidence bbox)
  else Raise ValidationError.
End Detection.

Module ZoneAlert.
Record t : Type := mk { zone_id : Z; zone_name : string; alert_type : string; confidence : Q }.

Definition make (zone_id : Z) (zone_name alert_type : string) (confidence : Q) : Outcome t :=
  if py_le 0 confidence && py_le confidence 1
  then Return (mk zone_id zone_name alert_type confidence)
  else Raise ValidationError.
End ZoneAlert.

Module Zone.
Record t : Type := mk {
  id : Z;
  camera_id : string;
  name : string;
  coordinates_json : string;
  alert_type : string;
  active : bool;
  active_hours : option string;
  created_at : Z;
}.
End Zone.

(** ** The ray-casting routine of the demo
    ([CompleteZoneDemo.point_in_polygon]) *)

Module Demo.

Record ray : Type := mk_ray {
  inside : bool;
  p1x : Q;
  p1y : Q;
  xinters : option Q;
}.

Definition index {A} (l : list A) (i : nat) : Outcome A :=
  match l !! i with
  | Some a => Return a
  | None => Raise IndexError
  end.

Definition py_div (a b : Q) : Outcome Q :=
  if py_eq b 0 then Raise ZeroDivisionError else Return (a / b)%Q.

(** The body of [for i in range(1, n + 1)]. *)
Definition edge (x y : Q) (polygon : list (Q * Q)) (n : nat)
    (st : ray) (i : nat) : Outcome ray :=
  '(p2x, p2y) ← index polygon (i mod n)%nat;
  st' ←
    (if py_lt (Qmin (p1y st) p2y) y then
       if py_le y (Qmax (p1y st) p2y) then
         if py_le x (Qmax (p1x st) p2x) then
           xi ← (if py_ne (p1y st) p2y then
                   q ← py_div ((y - p1y st) * (p2x - p1x st))%Q (p2y - p1y st)%Q;
                   mret (Some (q + p1x st)%Q)
                 else mret (xinters st));
           toggle ← (if py_eq (p1x st) p2x then mret true
                     else match xi with
                          | Some v => mret (py_le x v)
                          | None => Raise UnboundLocalError
                          end);
           mret (mk_ray (if toggle : bool then negb (inside st) else inside st)
                        (p1x st) (p1y st) xi)
         else mret st
       else mret st
     else mret st);
  mret (mk_ray (inside st') p2x p2y (xinters st')).

Fixpoint edges (x y : Q) (polygon : list (Q * Q)) (n : nat)
    (idxs : list nat) (st : ray) : Outcome ray :=
  match idxs with
  | [] => mret st
  | i :: idxs' => st' ← edge x y polygon n st i; edges x y polygon n idxs' st'
  end.

Definition point_in_polygon (point : Q * Q) (polygon : list (Q * Q)) : Outcome bool :=
  if (length polygon <? 3)%nat then Return false
  else
    let '(x, y) := point in
    let n := length polygon in
    '(p1x, p1y) ← index polygon 0;
    st ← edges x y polygon n (seq 1 n) (mk_ray false p1x p1y None);
    mret (inside st).

End Demo.

(** ** The zone service ([app/services/zone_service.py]) *)

Section ZoneDetectionService.
Context `{Runtime}.

(** [float(v)] for a decoded value. *)
Definition py_float (v : pyval) : Outcome Q :=
  match v with
  | PyBool b => Return (if b then 1 else 0)%Q
  | PyInt n =>
      if bool_decide (Z.abs n < float_overflow) then Return (inject_Z n)
      else Raise OverflowError
  | PyFloat q => Return q
  | PyStr s => float_of_str s
  | PyNone | PyList _ | PyDict _ => Raise TypeError
  end.

(** [(float(x), float(y))] for [x, y] bound to an item of [coords]. *)
Definition coordinate_pair (item : pyval) : Outcome (Q * Q) :=
  '(x, y) ← py_unpack2 item;
  fx ← py_float x;
  fy ← py_float y;
  mret (fx, fy).

(** [[(float(x), float(y)) for x, y in coords]] *)
Definition coordinate_pairs (coords : pyval) : Outcome (list (Q * Q)) :=
  items ← py_iter coords;
  mapM coordinate_pair items.

Definition parse_zone_coordinates (coordinates_json : string) : Eff (list (Q * Q)) :=
  try_except
    (lift (coords ← json_loads coordinates_json; coordinate_pairs coords))
    (λ e, log (Error_parse_coordinates e);; mret []).

Definition is_point_in_polygon (point : Q * Q) (polygon_coords : list (Q * Q)) : Eff bool :=
  try_except
    (if (length polygon_coords <? 3)%nat then
       log Warning_polygon_points;; mret false
     else lift (shapely_contains polygon_coords point))
    (λ e, log (Error_point_in_polygon e);; mret false).

Definition get_bbox_center (bbox : BoundingBox.t) : Q * Q :=
  let center_x := ((BoundingBox.x1 bbox + BoundingBox.x2 bbox) / 2)%Q in
  let center_y := ((BoundingBox.y1 bbox + BoundingBox.y2 bbox) / 2)%Q in
  (center_x, center_y).

(** The body of [for detection in detections]. *)
Definition check_detection (zone : Zone.t) (polygon_coords : list (Q * Q))
    (alerts : list ZoneAlert.t) (detection : Detection.t) : Eff (list ZoneAlert.t) :=
  let center := get_bbox_center (Detection.bbox detection) in
  hit ← is_point_in_polygon center polygon_coords;
  if hit : bool then
    alert ← lift (ZoneAlert.make (Zone.id zone) (Zone.name zone) (Zone.alert_type zone)
                                 (Detection.confidence detection));
    log (Info_zone_violation (Zone.name zone) (Detection.confidence detection));;
    mret (alerts ++ [alert])
  else mret alerts.

(** The body of [for zone in zones]. *)
Definition check_zone (detections : list Detection.t)
    (alerts : list ZoneAlert.t) (zone : Zone.t) : Eff (list ZoneAlert.t) :=
  if negb (Zone.active zone) then mret alerts
  else
    polygon_coords ← parse_zone_coordinates (Zone.coordinates_json zone);
    match polygon_coords with
    | [] => log (Warning_invalid_coordinates (Zone.id zone));; mret alerts
    | _ :: _ => for_each detections (check_detection zone polygon_coords) alerts
    end.

Definition check_zones (detections : list Detection.t) (zones : list Zone.t)
    : Eff (list ZoneAlert.t) :=
  let alerts := [] in
  match zones with
  | [] => log Debug_no_zones;; mret alerts
  | _ :: _ => for_each zones (check_zone detections) alerts
  end.

End ZoneDetectionService.

(** ** A reference runtime

    To run the model on concrete inputs: a decoder for the JSON grammar
    that follows the structure of Python's [json.decoder] and
    [json.scanner], decimal numerals for [float], and the ray casting of
    the demo in place of Shapely (the points evaluated below are off the
    boundary of their polygons, where the two may differ).  The
    literals [NaN] and [Infinity], escapes above code point 255 and the
    numerals [inf] and [nan] have no value in this model of floats and
    strings and are rejected; the encoder prints a float by its decimal
    expansion, cut after 17 fractional digits; the validation of
    coordinates accepts lists of lists of numbers only. *)

Module Reference.

Local Open Scope char_scope.

Definition is_ws (c : ascii) : bool :=
  bool_decide (c = " ") || bool_decide (c = "009") ||
  bool_decide (c = "010") || bool_decide (c = "013").

Fixpoint skip_ws (s : string) : string :=
  match s with
  | String c s' => if is_ws c then skip_ws s' else s
  | EmptyString => s
  end.

Definition is_digit (c : ascii) : bool :=
  (48 <=? nat_of_ascii c)%nat && (nat_of_ascii c <=? 57)%nat.

Definition digit_value (c : ascii) : Z := Z.of_nat (nat_of_ascii c) - 48.

(** The longest prefix of digits, and the rest. *)
Fixpoint span_digits (s : string) : string * string :=
  match s with
  | String c s' =>
      if is_digit c then let '(d, r) := span_digits s' in (String c d, r)
      else (EmptyString, s)
  | EmptyString => (EmptyString, s)
  end.

Fixpoint digits_value (acc : Z) (s : string) : Z :=
  match s with
  | String c s' => digits_value (10 * acc + digit_value c) s'
  | EmptyString => acc
  end.

(** [[eE][-+]?[0-9]+] at the head of [s]: the exponent and the rest. *)
Definition take_exponent (s : string) : option (Z * string * string) :=
  match s with
  | String e s1 =>
      if bool_decide (e = "e") || bool_decide (e = "E") then
        let '(neg, sgn, s2) :=
          match s1 with
          | String "-" r => (true, String "-" EmptyString, r)
          | String "+" r => (false, String "+" EmptyString, r)
          | _ => (false, EmptyString, s1)
          end in
        let '(d, r) := span_digits s2 in
        match d with
        | EmptyString => None
        | _ => let v := digits_value 0 d in
               Some (if neg : bool then - v else v,
                     (String e sgn ++ d)%string, r)
        end
      else None
  | EmptyString => None
  end.

Definition is_float_ws (c : ascii) : bool :=
  is_ws c || bool_decide (c = "011") || bool_decide (c = "012").

Fixpoint lstrip (s : string) : string :=
  match s with
  | String c s' => if is_float_ws c then lstrip s' else s
  | EmptyString => s
  end.

Definition rstrip (s : string) : string :=
  String.rev (lstrip (String.rev s)).

(** [float(s)] on a decimal numeral: optional sign, digits with an
    optional fraction (or a fraction alone), optional exponent. *)
Definition float_of_str (s : string) : Outcome Q :=
  let s0 := rstrip (lstrip s) in
  let '(neg, s1) :=
    match s0 with
    | String "-" r => (true, r)
    | String "+" r => (false, r)
    | _ => (false, s0)
    end in
  let '(int, s2) := span_digits s1 in
  let '(frac, s3) :=
    match s2 with
    | String "." r => span_digits r
    | _ => (EmptyString, s2)
    end in
  match int, frac with
  | EmptyString, EmptyString => Raise ValueError
  | _, _ =>
      let '(exp, s4) :=
        match take_exponent s3 with
        | Some (e, _, r) => (e, r)
        | None => (0, s3)
        end in
      match s4 with
      | EmptyString =>
          let m := digits_value 0 (int ++ frac)%string in
          let q := (inject_Z m * Qpower 10 (exp - Z.of_nat (String.length frac)))%Q in
          Return (Qred (if neg : bool then - q else q)%Q)
      | _ => Raise ValueError
      end
  end.

(** [match_number] at the head of [s]: an optional minus sign and an
    integer without leading zero, an optional fraction, an optional
    exponent; the three groups and the rest. *)
Definition match_number (s : string) : option (string * string * string * string) :=
  let '(sgn, s1) :=
    match s with
    | String "-" r => (String "-" EmptyString, r)
    | _ => (EmptyString, s)
    end in
  let int_rest :=
    match s1 with
    | String "0" r => Some (String "0" EmptyString, r)
    | _ => let '(d, r) := span_digits s1 in
           match d with EmptyString => None | _ => Some (d, r) end
    end in
  match int_rest with
  | None => None
  | Some (int, s2) =>
      let '(frac, s3) :=
        match s2 with
        | String "." r =>
            let '(d, r') := span_digits r in
            match d with
            | EmptyString => (EmptyString, s2)
            | _ => (String "." d, r')
            end
        | _ => (EmptyString, s2)
        end in
      let '(exp, s4) :=
        match take_exponent s3 with
        | Some (_, e, r) => (e, r)
        | None => (EmptyString, s3)
        end in
      Some ((sgn ++ int)%string, frac, exp, s4)
  end.

Definition parse_int (s : string) : Z :=
  match s with
  | String "-" r => - digits_value 0 r
  | _ => digits_value 0 s
  end.

Definition hex_value (c : ascii) : option Z :=
  let n := nat_of_ascii c in
  if is_digit c then Some (digit_value c)
  else if (97 <=? n)%nat && (n <=? 102)%nat then Some (Z.of_nat n - 87)
  else if (65 <=? n)%nat && (n <=? 70)%nat then Some (Z.of_nat n - 55)
  else None.

(** [scanstring], strict: the text after the opening quote. *)
Fixpoint scanstring (s : string) : Outcome (string * string) :=
  match s with
  | EmptyString => Raise JSONDecodeError
  | String "034" r => Return (EmptyString, r)
  | String "\" (String c r) =>
      let continue (ch : ascii) (r' : string) :=
        '(t, r'') ← scanstring r'; mret (String ch t, r'') in
      if bool_decide (c = "034") then continue "034" r
      else if bool_decide (c = "\") then continue "\" r
      else if bool_decide (c = "/") then continue "/" r
      else if bool_decide (c = "b") then continue "008" r
      else if bool_decide (c = "f") then continue "012" r
      else if bool_decide (c = "n") then continue "010" r
      else if bool_decide (c = "r") then continue "013" r
      else if bool_decide (c = "t") then continue "009" r
      else if bool_decide (c = "u") then
        match r with
        | String h1 (String h2 (String h3 (String h4 r'))) =>
            match hex_value h1, hex_value h2, hex_value h3, hex_value h4 with
            | Some 0, Some 0, Some a, Some b =>
                continue (ascii_of_nat (Z.to_nat (16 * a + b))) r'
            | _, _, _, _ => Raise JSONDecodeError
            end
        | _ => Raise JSONDecodeError
        end
      else Raise JSONDecodeError
  | String "\" EmptyString => Raise JSONDecodeError
  | String c r =>
      if (nat_of_ascii c <? 32)%nat then Raise JSONDecodeError
      else '(t, r') ← scanstring r; mret (String c t, r')
  end.

(** [dict(pairs)]: a later pair with a key already present replaces
    its value in place. *)
Fixpoint dict_set (d : list (string * pyval)) (k : string) (v : pyval)
    : list (string * pyval) :=
  match d with
  | [] => [(k, v)]
  | (k', v') :: d' =>
      if bool_decide (k' = k) then (k', v) :: d' else (k', v') :: dict_set d' k v
  end.

Definition starts_with (p s : string) : option string :=
  if String.prefix p s then Some (String.substring (String.length p)
                                    (String.length s - String.length p) s)
  else None.

(** [scan_once], [JSONArray] and [JSONObject]; [fuel] bounds the number
    of nested and successive values. *)
Fixpoint scan_once (fuel : nat) (s : string) : Outcome (pyval * string) :=
  match fuel with
  | O => Raise JSONDecodeError
  | S fuel' =>
      match s with
      | EmptyString => Raise JSONDecodeError
      | String c r =>
          if bool_decide (c = "034") then
            '(t, r') ← scanstring r; mret (PyStr t, r')
          else if bool_decide (c = "{") then
            let r1 := skip_ws r in
            match r1 with
            | String "}" r2 => mret (PyDict [], r2)
            | String "034" r2 => object_loop fuel' r2 []
            | _ => Raise JSONDecodeError
            end
          else if bool_decide (c = "[") then
            let r1 := skip_ws r in
            match r1 with
            | String "]" r2 => mret (PyList [], r2)
            | _ => array_loop fuel' r1 []
            end
          else
            match starts_with "null" s, starts_with "true" s, starts_with "false" s with
            | Some r', _, _ => mret (PyNone, r')
            | _, Some r', _ => mret (PyBool true, r')
            | _, _, Some r' => mret (PyBool false, r')
            | None, None, None =>
                match match_number s with
                | Some (integer, frac, exp, r') =>
                    match frac, exp with
                    | EmptyString, EmptyString => mret (PyInt (parse_int integer), r')
                    | _, _ =>
                        q ← float_of_str (integer ++ frac ++ exp);
                        mret (PyFloat q, r')
                    end
                | None => Raise JSONDecodeError
                end
            end
      end
  end
with array_loop (fuel : nat) (s : string) (values : list pyval)
    : Outcome (pyval * string) :=
  match fuel with
  | O => Raise JSONDecodeError
  | S fuel' =>
      '(value, r) ← scan_once fuel' s;
      let values := values ++ [value] in
      match skip_ws r with
      | String "]" r' => mret (PyList values, r')
      | String "," r' => array_loop fuel' (skip_ws r') values
      | _ => Raise JSONDecodeError
      end
  end
with object_loop (fuel : nat) (s : string) (pairs : list (string * pyval))
    : Outcome (pyval * string) :=
  match fuel with
  | O => Raise JSONDecodeError
  | S fuel' =>
      '(key, r) ← scanstring s;
      match skip_ws r with
      | String ":" r1 =>
          '(value, r2) ← scan_once fuel' (skip_ws r1);
          let pairs := dict_set pairs key value in
          match skip_ws r2 with
          | String "}" r3 => mret (PyDict pairs, r3)
          | String "," r3 =>
              match skip_ws r3 with
              | String "034" r4 => object_loop fuel' r4 pairs
              | _ => Raise JSONDecodeError
              end
          | _ => Raise JSONDecodeError
          end
      | _ => Raise JSONDecodeError
      end
  end.

(** [JSONDecoder.decode]: one value between optional white space. *)
Definition json_loads (s : string) : Outcome pyval :=
  '(obj, r) ← scan_once (2 * String.length s + 2) (skip_ws s);
  match skip_ws r with
  | EmptyString => mret obj
  | _ => Raise JSONDecodeError
  end.

Definition shapely_contains (polygon : list (Q * Q)) (point : Q * Q) : Outcome bool :=
  Demo.point_in_polygon point polygon.

Fixpoint fraction_digits (fuel : nat) (r d : Z) : string :=
  match fuel with
  | O => EmptyString
  | S fuel' =>
      if bool_decide (r = 0) then EmptyString
      else (pretty (10 * r / d) ++ fraction_digits fuel' (10 * r mod d) d)%string
  end.

Definition float_repr (q : Q) : string :=
  let n := Qnum q in
  let d := Z.pos (Qden q) in
  let a := Z.abs n in
  let frac := fraction_digits 17 (a mod d) d in
  ((if bool_decide (n < 0) then "-" else "") ++ pretty (a / d) ++ "." ++
   (match frac with EmptyString => "0" | _ => frac end))%string.

Definition join (sep : string) (l : list string) : string :=
  match l with
  | [] => EmptyString
  | x :: l' => foldl (λ acc y, acc ++ sep ++ y)%string x l'
  end.

Definition json_dumps (coordinates : list (list Q)) : string :=
  let array (items : list string) := ("[" ++ join ", " items ++ "]")%string in
  array ((λ point, array (float_repr <$> point)) <$> coordinates).

Definition validate_float (v : pyval) : Outcome Q :=
  match v with
  | PyInt n => Return (inject_Z n)
  | PyFloat q => Return q
  | _ => Raise ValidationError
  end.

Definition validate_coordinates (v : pyval) : Outcome (list (list Q)) :=
  match v with
  | PyList rows =>
      mapM (λ row, match row with
                   | PyList items => mapM validate_float items
                   | _ => Raise ValidationError
                   end) rows
  | _ => Raise ValidationError
  end.

Definition runtime : Runtime :=
  Build_Runtime json_loads float_of_str shapely_contains json_dumps
                validate_coordinates.

End Reference.

(** ** The detection service ([app/services/yolo_service.py]) *)

(** What the model returns: one [Results] per image, each with its
    boxes ([box.cls[0]], [box.conf[0]], [box.xyxy[0]]). *)
Module Box.
Record t : Type := mk { cls : Z; conf : Q; xyxy : Q * Q * Q * Q }.
End Box.

Module Results.
Record t : Type := mk { boxes : list Box.t }.
End Results.

Section YOLODetectionService.
Variable Image : Type.

(** The attributes of the service that [detect_objects] reads;
    [person_class_id] is set to 0 by [__init__] and never assigned
    again. *)
Record YOLODetectionService : Type := {
  model : option (Image → Outcome (list Results.t));
  model_loaded : bool;
}.

Definition person_class_id : Z := 0.

(** The local variables of the loops of [detect_objects]. *)
Record tally : Type := mk_tally {
  detections : list Detection.t;
  total_person_detections : nat;
  rejected_low_conf : nat;
  rejected_small_box : nat;
}.

(** The body of [for box in boxes]. *)
Definition process_box (st : tally) (box : Box.t) : Eff tally :=
  let class_id := Box.cls box in
  if bool_decide (class_id ≠ person_class_id) then mret st
  else
    let total := S (total_person_detections st) in
    let confidence := Box.conf box in
    let '(x1, y1, x2, y2) := Box.xyxy box in
    let width := (x2 - x1)%Q in
    let height := (y2 - y1)%Q in
    if py_lt confidence (3 # 10) then
      log (Debug_rejected_low_confidence confidence);;
      mret (mk_tally (detections st) total (S (rejected_low_conf st))
                     (rejected_small_box st))
    else if py_lt width 20 || py_lt height 40 then
      log (Debug_rejected_too_small width height);;
      mret (mk_tally (detections st) total (rejected_low_conf st)
                     (S (rejected_small_box st)))
    else
      detection ← lift (Detection.make "person" confidence
                          (BoundingBox.mk x1 y1 x2 y2));
      mret (mk_tally (detections st ++ [detection]) total
                     (rejected_low_conf st) (rejected_small_box st)).

Definition detect_objects (self : YOLODetectionService) (image : Image)
    : Eff (list Detection.t) :=
  match model_loaded self, model self with
  | true, Some run =>
      try_except
        (results ← lift (run image);
         st ← for_each results
                (λ st result, for_each (Results.boxes result) process_box st)
                (mk_tally [] 0 0 0);
         log (Info_detected (length (detections st)) (total_person_detections st)
                            (rejected_low_conf st) (rejected_small_box st));;
         mret (detections st))
        (λ e, log (Error_during_detection e);; mret [])
  | _, _ => log Error_model_not_loaded;; mret []
  end.

End YOLODetectionService.

Arguments model {Image} _.
Arguments model_loaded {Image} _.
Arguments detect_objects {Image} self image.


(** ** Rows and the database session ([app/models/database.py]) *)

Module User.
Record t : Type := mk {
  id : Z;
  email : string;
  api_key : string;
  plan : string;
  cameras_allowed : Z;
  status : string;
  created_at : Z;
}.
End User.

Module Camera.
Record t : Type := mk {
  id : string;
  name : string;
  user_id : Z;
  location : option string;
  active : bool;
  created_at : Z;
  last_frame_at : option Z;
}.
End Camera.

Module Alert.
Record t : Type := mk {
  id : Z;
  camera_id : string;
  zone_id : Z;
  detection_type : string;
  confidence : Q;
  bbox_json : option string;
  image_url : option string;
  extra_data : option string;
  timestamp : Z;
}.
End Alert.

(** The rows a session sees, table by table in storage order, and the
    clock that [datetime.utcnow] reads.  The callers create a row only
    after looking its key up, so that [flush] is an append. *)
Module Session.
Record t : Type := mk {
  users : list User.t;
  cameras : list Camera.t;
  zones : list Zone.t;
  alerts : list Alert.t;
  utcnow : Z;
}.
End Session.

(** The key an auto-incremented integer column gives to a new row. *)
Definition next_id (ids : list Z) : Z := 1 + foldr Z.max 0 ids.

(** ** CRUD operations ([app/db/crud.py]) *)

Module crud.
Section crud.
Context `{Runtime}.

Definition get_camera (db : Session.t) (camera_id : string) : option Camera.t :=
  head (filter (λ c, Camera.id c = camera_id) (Session.cameras db)).

Definition create_camera (db : Session.t) (camera_id name : string) (user_id : Z)
    (location : option string) : Camera.t * Session.t :=
  let camera := Camera.mk camera_id name user_id location true (Session.utcnow db) None in
  (camera,
   Session.mk (Session.users db) (Session.cameras db ++ [camera])
              (Session.zones db) (Session.alerts db) (Session.utcnow db)).

Definition get_zone (db : Session.t) (zone_id : Z) : option Zone.t :=
  head (filter (λ z, Zone.id z = zone_id) (Session.zones db)).

Definition get_camera_zones (db : Session.t) (camera_id : string)
    (active_only : bool) : list Zone.t :=
  let query := filter (λ z, Zone.camera_id z = camera_id) (Session.zones db) in
  let query := if active_only then filter (λ z, Zone.active z = true) query
               else query in
  query.

Definition create_zone (db : Session.t) (camera_id name : string)
    (coordinates : list (list Q)) (alert_type : string) (active : bool)
    (active_hours : option string) : Zone.t * Session.t :=
  let zone := Zone.mk (next_id (Zone.id <$> Session.zones db)) camera_id name
                      (json_dumps coordinates) alert_type active active_hours
                      (Session.utcnow db) in
  (zone,
   Session.mk (Session.users db) (Session.cameras db)
              (Session.zones db ++ [zone]) (Session.alerts db) (Session.utcnow db)).

Definition delete_zone (db : Session.t) (zone_id : Z) : bool * Session.t :=
  match get_zone db zone_id with
  | Some zone =>
      let alerts := filter (λ a, Alert.zone_id a = zone_id) (Session.alerts db) in
      let remaining :=
        foldl (λ rows alert, filter (λ a, Alert.id a ≠ Alert.id alert) rows)
              (Session.alerts db) alerts in
      (true,
       Session.mk (Session.users db) (Session.cameras db)
                  (filter (λ z, Zone.id z ≠ Zone.id zone) (Session.zones db))
                  remaining (Session.utcnow db))
  | None => (false, db)
  end.

Definition create_alert (db : Session.t) (camera_id : string) (zone_id : Z)
    (detection_type : string) (confidence : Q) (bbox_json image_url : option string)
    : Alert.t * Session.t :=
  let alert := Alert.mk (next_id (Alert.id <$> Session.alerts db)) camera_id zone_id
                        detection_type confidence bbox_json image_url None
                        (Session.utcnow db) in
  (alert,
   Session.mk (Session.users db) (Session.cameras db) (Session.zones db)
              (Session.alerts db ++ [alert]) (Session.utcnow db)).

(** The user operations and the remaining camera operations. *)
Definition get_user_by_api_key (db : Session.t) (api_key : string) : option User.t :=
  head (filter (λ u, User.api_key u = api_key) (Session.users db)).

Definition create_user (db : Session.t) (email api_key plan : string)
    (cameras_allowed : Z) : User.t * Session.t :=
  let user := User.mk (next_id (User.id <$> Session.users db)) email api_key plan
                      cameras_allowed "active" (Session.utcnow db) in
  (user,
   Session.mk (Session.users db ++ [user]) (Session.cameras db)
              (Session.zones db) (Session.alerts db) (Session.utcnow db)).

Definition get_user_cameras (db : Session.t) (user_id : Z) : list Camera.t :=
  filter (λ c, Camera.user_id c = user_id) (Session.cameras db).

Definition update_camera_last_frame (db : Session.t) (camera_id : string) : Session.t :=
  match get_camera db camera_id with
  | Some camera =>
      let touch (c : Camera.t) :=
        if bool_decide (Camera.id c = Camera.id camera) then
          Camera.mk (Camera.id c) (Camera.name c) (Camera.user_id c) (Camera.location c)
                    (Camera.active c) (Camera.created_at c) (Some (Session.utcnow db))
        else c in
      Session.mk (Session.users db) (touch <$> Session.cameras db)
                 (Session.zones db) (Session.alerts db) (Session.utcnow db)
  | None => db
  end.

End crud.
End crud.

(** ** Zone schemas ([app/models/schemas.py]) *)

Module ZoneCreate.
Record t : Type := mk {
  name : string;
  coordinates : list (list Q);
  alert_type : string;
  active : bool;
  active_hours : option string;
}.

(** The constraints of the fields: [name] has [min_length=1] and
    [max_length=255], [coordinates] has [min_length=3]. *)
Definition validate (body : t) : bool :=
  (1 <=? String.length (name body))%nat &&
  (String.length (name body) <=? 255)%nat &&
  (3 <=? length (coordinates body))%nat.
End ZoneCreate.

Module ZoneResponse.
Record t : Type := mk {
  id : Z;
  camera_id : string;
  name : string;
  coordinates : list (list Q);
  alert_type : string;
  active : bool;
  active_hours : option string;
  created_at : Z;
}.
End ZoneResponse.

Module HTTPException.
(** [detail] is the constant part of the message. *)
Record t : Type := mk { status_code : Z; detail : string }.
End HTTPException.

Inductive Response (A : Type) : Type :=
  | Respond (status_code : Z) (body : A)
  | Reject (e : HTTPException.t).
Arguments Respond {A} status_code body.
Arguments Reject {A} e.

(** ** Authentication ([app/services/auth_service.py], [app/dependencies.py])

    The [logger] calls of these functions are not recorded. *)

Module auth_service.

Definition verify_api_key (db : Session.t) (api_key : string) : option User.t :=
  match crud.get_user_by_api_key db api_key with
  | None => None
  | Some user =>
      if bool_decide (User.status user ≠ "active") then None else Some user
  end.

Definition check_camera_limit (db : Session.t) (user : User.t) (camera_id : string)
    : bool * string :=
  let cameras := crud.get_user_cameras db (User.id user) in
  let camera_ids := Camera.id <$> cameras in
  if bool_decide (camera_id ∈ camera_ids) then (true, "Camera already registered")
  else if bool_decide (User.cameras_allowed user ≤ Z.of_nat (length cameras)) then
    (false, ("Camera limit reached. Your " ++ User.plan user ++ " plan allows "
             ++ pretty (User.cameras_allowed user) ++ " cameras.")%string)
  else (true, "Camera limit not reached").

End auth_service.

Module dependencies.

(** The white space of [str.split] and [str.lower], for code points
    below 256. *)
Definition is_space (c : ascii) : bool :=
  let n := nat_of_ascii c in
  ((9 <=? n) && (n <=? 13) || (28 <=? n) && (n <=? 32)
   || (n =? 133) || (n =? 160))%nat.

Definition lower_char (c : ascii) : ascii :=
  let n := nat_of_ascii c in
  if ((65 <=? n) && (n <=? 90) || (192 <=? n) && (n <=? 222) && negb (n =? 215))%nat
  then ascii_of_nat (n + 32) else c.

Fixpoint lower (s : string) : string :=
  match s with
  | EmptyString => EmptyString
  | String c s' => String (lower_char c) (lower s')
  end.

(** [s.split()]: the maximal runs of characters that are not white
    space; [word] is the run being read, in reverse. *)
Fixpoint split_from (word : string) (s : string) : list string :=
  let flush := match word with EmptyString => [] | _ => [String.rev word] end in
  match s with
  | EmptyString => flush
  | String c s' =>
      if is_space c then flush ++ split_from EmptyString s'
      else split_from (String c word) s'
  end.

Definition split (s : string) : list string := split_from EmptyString s.

Definition unauthorized (detail : string) : HTTPException.t :=
  HTTPException.mk 401 detail.

Definition get_current_user (authorization : option string) (db : Session.t)
    : HTTPException.t + User.t :=
  match authorization with
  | None | Some EmptyString => inl (unauthorized "Missing authorization header")
  | Some authorization =>
      let parts := split authorization in
      match parts with
      | [scheme; api_key] =>
          if bool_decide (lower scheme ≠ "bearer") then
            inl (unauthorized "Invalid authorization header format. Use: Bearer <api_key>")
          else
            match auth_service.verify_api_key db api_key with
            | Some user => inr user
            | None => inl (unauthorized "Invalid or inactive API key")
            end
      | _ => inl (unauthorized "Invalid authorization header format. Use: Bearer <api_key>")
      end
  end.

End dependencies.

(** ** Zone endpoints ([app/api/zones.py]) *)

Module zones.
Section zones.
Context `{Runtime}.

(** The handler of [POST /cameras/{camera_id}/zones], with the session
    as it is when the handler returns or raises (what [get_db] then
    does with the session is outside this model).  The [logger] calls
    of the handler are not recorded. *)
Definition create_zone (db : Session.t) (camera_id : string)
    (zone_data : ZoneCreate.t) (current_user : User.t)
    : Response ZoneResponse.t * Session.t :=
  let '(permitted, db) :=
    match crud.get_camera db camera_id with
    | None =>
        let '(_, db) := crud.create_camera db camera_id ("Camera " ++ camera_id)
                          (User.id current_user) None in
        (true, db)
    | Some camera =>
        (negb (bool_decide (Camera.user_id camera ≠ User.id current_user)), db)
    end in
  if negb permitted then
    (Reject (HTTPException.mk 403 "You don't have permission to modify this camera"), db)
  else if (length (ZoneCreate.coordinates zone_data) <? 3)%nat then
    (Reject (HTTPException.mk 400 "Zone must have at least 3 coordinate points"), db)
  else
    let '(zone, db) :=
      crud.create_zone db camera_id (ZoneCreate.name zone_data)
        (ZoneCreate.coordinates zone_data) (ZoneCreate.alert_type zone_data)
        (ZoneCreate.active zone_data) (ZoneCreate.active_hours zone_data) in
    match json_loads (Zone.coordinates_json zone) ≫= validate_coordinates with
    | Return coordinates =>
        (Respond 201
           (ZoneResponse.mk (Zone.id zone) (Zone.camera_id zone) (Zone.name zone)
              coordinates (Zone.alert_type zone) (Zone.active zone)
              (Zone.active_hours zone) (Zone.created_at zone)), db)
    | Raise _ => (Reject (HTTPException.mk 500 "Error creating zone"), db)
    end.

(** The route: the framework validates the body against [ZoneCreate]
    and answers 422 without calling the handler when it is invalid. *)
Definition post_zone (db : Session.t) (camera_id : string)
    (body : ZoneCreate.t) (current_user : User.t)
    : Response ZoneResponse.t * Session.t :=
  if ZoneCreate.validate body then create_zone db camera_id body current_user
  else (Reject (HTTPException.mk 422 "Unprocessable Entity"), db).

(** [ZoneResponse(id=zone.id, ..., coordinates=json.loads(zone.coordinates_json), ...)] *)
Definition zone_response (zone : Zone.t) : Outcome ZoneResponse.t :=
  coordinates ← json_loads (Zone.coordinates_json zone) ≫= validate_coordinates;
  mret (ZoneResponse.mk (Zone.id zone) (Zone.camera_id zone) (Zone.name zone)
          coordinates (Zone.alert_type zone) (Zone.active zone)
          (Zone.active_hours zone) (Zone.created_at zone)).

(** The handler of [GET /cameras/{camera_id}/zones]. *)
Definition get_zones (db : Session.t) (camera_id : string) (current_user : User.t)
    : Response (list ZoneResponse.t) * Session.t :=
  let '(permitted, db) :=
    match crud.get_camera db camera_id with
    | None =>
        let '(_, db) := crud.create_camera db camera_id ("Camera " ++ camera_id)
                          (User.id current_user) None in
        (true, db)
    | Some camera =>
        (negb (bool_decide (Camera.user_id camera ≠ User.id current_user)), db)
    end in
  if negb permitted then
    (Reject (HTTPException.mk 403 "You don't have permission to view this camera's zones"),
     db)
  else
    let zones := crud.get_camera_zones db camera_id false in
    match mapM zone_response zones with
    | Return zone_responses => (Respond 200 zone_responses, db)
    | Raise _ => (Reject (HTTPException.mk 500 "Error retrieving zones"), db)
    end.

(** The handler of [DELETE /cameras/{camera_id}/zones/{zone_id}]. *)
Definition delete_zone (db : Session.t) (camera_id : string) (zone_id : Z)
    (current_user : User.t) : Response unit * Session.t :=
  match crud.get_zone db zone_id with
  | None => (Reject (HTTPException.mk 404 "Zone not found"), db)
  | Some zone =>
      if bool_decide (Zone.camera_id zone ≠ camera_id) then
        (Reject (HTTPException.mk 400 "Zone does not belong to camera"), db)
      else
        match crud.get_camera db (Zone.camera_id zone) with
        | Some camera =>
            if bool_decide (Camera.user_id camera ≠ User.id current_user) then
              (Reject (HTTPException.mk 403 "You don't have permission to delete this zone"),
               db)
            else
              let '(_, db) := crud.delete_zone db zone_id in
              (Respond 204 tt, db)
        | None =>
            (Reject (HTTPException.mk 403 "You don't have permission to delete this zone"),
             db)
        end
  end.

End zones.
End zones.

(** ** The detection endpoint ([app/api/detect.py]) *)

Module DetectionResponse.
Record t : Type := mk {
  camera_id : string;
  timestamp : Z;
  detections : list Detection.t;
  alerts : list ZoneAlert.t;
}.
End DetectionResponse.


Module detect.
Section detect.
Context `{Runtime}.

(** The body of [for alert in alerts]. *)
Definition save_alert (zones : list Zone.t) (camera_id : string)
    (db : Session.t) (alert : ZoneAlert.t) : Session.t :=
  match head (filter (λ z, Zone.id z = ZoneAlert.zone_id alert) zones) with
  | Some zone =>
      (crud.create_alert db camera_id (Zone.id zone) "person"
         (ZoneAlert.confidence alert) None None).2
  | None => db
  end.

(** The statements of [detect_objects] from the read of the zones to
    the storage of the alerts. *)
Definition zone_violations (db : Session.t) (camera_id : string)
    (detections : list Detection.t) : Eff (list ZoneAlert.t * Session.t) :=
  let zones := crud.get_camera_zones db camera_id true in
  alerts ← check_zones detections zones;
  let db := foldl (save_alert zones camera_id) db alerts in
  mret (alerts, db).

(** The handler of [POST /detect].  [image] is the upload as read and
    decoded into an RGB image, or the exception of that step; [yolo] is
    the detection service.  The log is that of the two services. *)
Definition detect_objects {Image} (yolo : YOLODetectionService Image)
    (db : Session.t) (image : Outcome Image) (camera_id : string)
    (current_user : User.t) : Eff (Response DetectionResponse.t * Session.t) :=
  let '(allowed, message) := auth_service.check_camera_limit db current_user camera_id in
  if negb allowed then mret (Reject (HTTPException.mk 403 message), db)
  else
    let db :=
      match crud.get_camera db camera_id with
      | Some _ => db
      | None => (crud.create_camera db camera_id ("Camera " ++ camera_id)
                   (User.id current_user) None).2
      end in
    let db := crud.update_camera_last_frame db camera_id in
    match image with
    | Raise _ => mret (Reject (HTTPException.mk 400 "Invalid image file"), db)
    | Return pil_image =>
        try_except
          (detections ← detect_objects yolo pil_image;
           '(alerts, db') ← zone_violations db camera_id detections;
           mret (Respond 200 (DetectionResponse.mk camera_id (Session.utcnow db')
                                detections alerts), db'))
          (λ _, mret (Reject (HTTPException.mk 500 "Error processing frame"), db))
    end.

End detect.
End detect.

(** ** What the zone service computes

    Closed forms of the values and of the log records of
    [parse_zone_coordinates], [is_point_in_polygon] and of the loops of
    [check_zones]. *)

Section ZoneDetectionService_values.
Context `{Runtime}.

Definition polygon_of (coordinates_json : string) : list (Q * Q) :=
  match coords ← json_loads coordinates_json; coordinate_pairs coords with
  | Return polygon => polygon
  | Raise _ => []
  end.

Definition parse_log (coordinates_json : string) : list LogRecord :=
  match coords ← json_loads coordinates_json; coordinate_pairs coords with
  | Return _ => []
  | Raise e => [Error_parse_coordinates e]
  end.

Definition contains (polygon : list (Q * Q)) (point : Q * Q) : bool :=
  (3 <=? length polygon)%nat &&
  match shapely_contains polygon point with
  | Return b => b
  | Raise _ => false
  end.

Definition contains_log (polygon : list (Q * Q)) (point : Q * Q) : list LogRecord :=
  if (length polygon <? 3)%nat then [Warning_polygon_points]
  else match shapely_contains polygon point with
       | Return _ => []
       | Raise e => [Error_point_in_polygon e]
       end.

Definition center (d : Detection.t) : Q * Q := get_bbox_center (Detection.bbox d).

Definition alert_of (z : Zone.t) (d : Detection.t) : ZoneAlert.t :=
  ZoneAlert.mk (Zone.id z) (Zone.name z) (Zone.alert_type z) (Detection.confidence d).

Definition detection_alerts (z : Zone.t) (polygon : list (Q * Q)) (d : Detection.t)
    : list ZoneAlert.t :=
  if contains polygon (center d) then [alert_of z d] else [].

Definition detection_log (z : Zone.t) (polygon : list (Q * Q)) (d : Detection.t)
    : list LogRecord :=
  contains_log polygon (center d) ++
  if contains polygon (center d)
  then [Info_zone_violation (Zone.name z) (Detection.confidence d)] else [].

Definition zone_alerts (dets : list Detection.t) (z : Zone.t) : list ZoneAlert.t :=
  if Zone.active z then
    match polygon_of (Zone.coordinates_json z) with
    | [] => []
    | (_ :: _) as polygon => dets ≫= detection_alerts z polygon
    end
  else [].

Definition zone_log (dets : list Detection.t) (z : Zone.t) : list LogRecord :=
  if Zone.active z then
    parse_log (Zone.coordinates_json z) ++
    match polygon_of (Zone.coordinates_json z) with
    | [] => [Warning_invalid_coordinates (Zone.id z)]
    | (_ :: _) as polygon => dets ≫= detection_log z polygon
    end
  else [].

(** The alerts the specification asks of the evaluator: one for each
    pair of a zone and a detection, in zone-then-detection order, such
    that the zone is active, its polygon is valid and contains the
    center of the detection. *)
Definition valid_polygon (polygon : list (Q * Q)) : bool :=
  (3 <=? length polygon)%nat.

Definition center_inside (polygon : list (Q * Q)) (detection : Detection.t) : bool :=
  match shapely_contains polygon (get_bbox_center (Detection.bbox detection)) with
  | Return b => b
  | Raise _ => false
  end.

Definition expected_alerts (detections : list Detection.t) (zones : list Zone.t)
    : list ZoneAlert.t :=
  zone ← zones;
  detection ← detections;
  let polygon := polygon_of (Zone.coordinates_json zone) in
  if Zone.active zone && valid_polygon polygon && center_inside polygon detection
  then [ZoneAlert.mk (Zone.id zone) (Zone.name zone) (Zone.alert_type zone)
                     (Detection.confidence detection)]
  else [].




(** What the evaluation logs for a zone with fewer than three points. *)
Definition invalid_zone_report (detections : list Detection.t) (zone : Zone.t)
    : list LogRecord :=
  if Zone.active zone then
    match polygon_of (Zone.coordinates_json zone) with
    | [] => parse_log (Zone.coordinates_json zone)
            ++ [Warning_invalid_coordinates (Zone.id zone)]
    | _ :: _ => repeat Warning_polygon_points (length detections)
    end
  else [].

(** *** The alerts of the specification, from the stored coordinates

    The definitions below follow the words of the specification and use
    nothing of the service: the polygon of a zone is read off the stored
    text, the reference point is the center of the bounding box, and a
    polygon is valid when it has at least three points. *)

(** The float that a decoded number stands for, within the range of the
    floats. *)
Definition number_value (v : pyval) : option Q :=
  match v with
  | PyInt n => if bool_decide (Z.abs n < float_overflow) then Some (inject_Z n) else None
  | PyFloat q => Some q
  | _ => None
  end.



Definition is_row_of_numbers (v : pyval) : bool :=
  match v with
  | PyList items => forallb (λ item, bool_decide (is_Some (number_value item))) items
  | _ => false
  end.

(** The coordinates of the zone are as [create_zone] stores them, the
    JSON text of a list of rows of numbers, or are no JSON text. *)
Definition stored_coordinates (z : Zone.t) : Prop :=
  match json_loads (Zone.coordinates_json z) with
  | Return (PyList rows) => forallb is_row_of_numbers rows = true
  | Return _ => False
  | Raise _ => True
  end.





End ZoneDetectionService_values.

(** ** The registry read and the detection filter of the specification *)

(** [activeZonesForCamera(cameraId, atTime)]: the zones of the camera
    that are active and whose active-hours window, if any, contains
    [at_time], for a reading [in_window] of the stored windows. *)
Definition in_active_hours (in_window : string → Z → bool) (z : Zone.t)
    (at_time : Z) : bool :=
  match Zone.active_hours z with
  | Some window => in_window window at_time
  | None => true
  end.

Definition active_zones_for_camera (in_window : string → Z → bool)
    (db : Session.t) (camera_id : string) (at_time : Z) : list Zone.t :=
  filter (λ z, Zone.camera_id z = camera_id
               ∧ Zone.active z = true
               ∧ in_active_hours in_window z at_time = true)
         (Session.zones db).

#[export] Instance Qle_dec (a b : Q) : Decision (a <= b)%Q :=
  match Qlt_le_dec b a with
  | left Hlt => right (Qlt_not_le _ _ Hlt)
  | right Hle => left Hle
  end.

(** The filter with its default thresholds: confidence at least 0.3,
    width at least 20 and height at least 40. *)
Definition retained (box : Box.t) : Prop :=
  let '(x1, y1, x2, y2) := Box.xyxy box in
  (3 # 10 <= Box.conf box)%Q ∧ (20 <= x2 - x1)%Q ∧ (40 <= y2 - y1)%Q.

#[export] Instance retained_dec box : Decision (retained box).
Proof. unfold retained. destruct (Box.xyxy box) as [[[x1 y1] x2] y2]. apply _. Defined.

Definition detection_of (box : Box.t) : Detection.t :=
  let '(x1, y1, x2, y2) := Box.xyxy box in
  Detection.mk "person" (Box.conf box) (BoundingBox.mk x1 y1 x2 y2).

Definition filtered_detections (boxes : list Box.t) : list Detection.t :=
  detection_of <$> filter (λ box, Box.cls box = 0 ∧ retained box) boxes.

(** ** Inputs of the concrete runs *)

Module Scenario.

Definition square : string := "[[0,0],[100,0],[100,100],[0,100]]".

Definition zone (id : Z) (coordinates_json : string) (active : bool) : Zone.t :=
  Zone.mk id "cam-1" ("zone-" ++ pretty id) coordinates_json "intrusion" active None 0.

Definition person (confidence : Q) (x1 y1 x2 y2 : Q) : Detection.t :=
  Detection.mk "person" confidence (BoundingBox.mk x1 y1 x2 y2).

Definition inside : Detection.t := person (9 # 10) 40 40 60 60.
Definition outside : Detection.t := person (9 # 10) 200 200 220 260.

Definition check (detections : list Detection.t) (zones : list Zone.t)
    : Eff (list ZoneAlert.t) :=
  check_zones (H := Reference.runtime) detections zones.

Definition quote : string := String "034"%char EmptyString.


Definition night_zone : Zone.t :=
  Zone.mk 1 "cam-1" "night" square "intrusion" true (Some "22:00-06:00") 0.

Definition db : Session.t :=
  Session.mk [] [] [night_zone; zone 2 square true; zone 3 square false]
    [Alert.mk 1 "cam-1" 1 "person" (9 # 10) None None None 0;
     Alert.mk 2 "cam-1" 2 "person" (8 # 10) None None None 0;
     Alert.mk 3 "cam-1" 1 "person" (7 # 10) None None None 0]
    0.

Definition user : User.t := User.mk 1 "test@civicsentinel.com" "key" "free" 2 "active" 0.

Definition boxes : list Box.t :=
  [Box.mk 0 (3 # 10) (0, 0, 20, 40)%Q;
   Box.mk 0 (29 # 100) (0, 0, 20, 40)%Q;
   Box.mk 0 (9 # 10) (0, 0, 19, 40)%Q;
   Box.mk 2 (9 # 10) (0, 0, 50, 50)%Q;
   Box.mk 0 (9 # 10) (10, 10, 30, 50)%Q].

Definition yolo : YOLODetectionService unit :=
  {| model := Some (λ _, Return [Results.mk boxes]); model_loaded := true |}.

End Scenario.

Import Scenario.

(** ** What the detection service and the endpoints promise *)

(** A detection that passed the filters of [detect_objects]. *)
Definition kept_detection (d : Detection.t) : Prop :=
  Detection.class_name d = "person"
  ∧ Detection.valid d
  ∧ (3 # 10 <= Detection.confidence d)%Q
  ∧ (20 <= BoundingBox.x2 (Detection.bbox d) - BoundingBox.x1 (Detection.bbox d))%Q
  ∧ (40 <= BoundingBox.y2 (Detection.bbox d) - BoundingBox.y1 (Detection.bbox d))%Q.

Definition person_boxes (boxes : list Box.t) : list Box.t :=
  filter (λ box, Box.cls box = 0) boxes.

#[export] Instance Qlt_decision (a b : Q) : Decision (a < b)%Q :=
  match Qlt_le_dec a b with
  | left Hlt => left Hlt
  | right Hle => right (Qle_not_lt _ _ Hle)
  end.

(** The person boxes that the confidence filter rejects. *)
Definition low_confidence (box : Box.t) : Prop :=
  Box.cls box = 0 ∧ (Box.conf box < 3 # 10)%Q.

(** The person boxes that pass the confidence filter and that the size
    filter rejects. *)
Definition too_small (box : Box.t) : Prop :=
  let '(x1, y1, x2, y2) := Box.xyxy box in
  Box.cls box = 0 ∧ (3 # 10 <= Box.conf box)%Q
  ∧ ((x2 - x1 < 20)%Q ∨ (y2 - y1 < 40)%Q).

#[export] Instance too_small_dec box : Decision (too_small box).
Proof. unfold too_small. destruct (Box.xyxy box) as [[[x1 y1] x2] y2]. apply _. Defined.

(** The record of a rejection: the confidence of a box rejected for its
    confidence, the width and the height of a box rejected for its
    size; nothing for the other boxes. *)
Definition rejection (box : Box.t) : list LogRecord :=
  let '(x1, y1, x2, y2) := Box.xyxy box in
  if decide (low_confidence box) then [Debug_rejected_low_confidence (Box.conf box)]
  else if decide (too_small box) then [Debug_rejected_too_small (x2 - x1) (y2 - y1)]
  else [].

(** The local variables of the loops of [detect_objects] after the boxes
    [boxes], from [st]. *)
Definition counted (st : tally) (boxes : list Box.t) : tally :=
  mk_tally (detections st ++ filtered_detections boxes)
           (total_person_detections st + length (person_boxes boxes))
           (rejected_low_conf st + length (filter low_confidence boxes))
           (rejected_small_box st + length (filter too_small boxes)).

(** The row that [detect_objects] stores for an alert of a camera. *)
Definition stored_as (camera_id : string) (row : Alert.t) (alert : ZoneAlert.t) : Prop :=
  Alert.camera_id row = camera_id
  ∧ Alert.zone_id row = ZoneAlert.zone_id alert
  ∧ Alert.detection_type row = "person"
  ∧ Alert.confidence row = ZoneAlert.confidence alert
  ∧ Alert.bbox_json row = None
  ∧ Alert.image_url row = None.

(** The number of cameras of a user is within the allowance of the plan. *)
Definition within_limit (db : Session.t) (user : User.t) : Prop :=
  Z.of_nat (length (crud.get_user_cameras db (User.id user))) ≤ User.cameras_allowed user.

Fixpoint has_space (s : string) : bool :=
  match s with
  | EmptyString => false
  | String c s' => dependencies.is_space c || has_space s'
  end.

(** The point that a row of two coordinates stands for. *)
Definition point_of_row (row : list Q) : Q * Q :=
  match row with
  | [x; y] => (x, y)
  | _ => (0, 0)%Q
  end.

(** What [json.loads] gives back for the text that [json.dumps] writes
    for a list of lists of floats. *)
Definition decoded_coordinates (coordinates : list (list Q)) : pyval :=
  PyList ((λ row, PyList (PyFloat <$> row)) <$> coordinates).

(** ** A deployment with two users

    The owner has a camera with a zone; the guest has none and may
    register one. *)
Module Site.

Definition owner : User.t := User.mk 1 "owner@example.com" "key-1" "free" 2 "active" 0.
Definition guest : User.t := User.mk 2 "guest@example.com" "key-2" "free" 1 "active" 0.

Definition camera : Camera.t := Camera.mk "cam-1" "Camera cam-1" 1 None true 0 None.

Definition db : Session.t :=
  Session.mk [owner; guest] [camera] [zone 2 square true] [] 5.

Definition rectangle : list (Q * Q) := [(0, 0); (100, 0); (100, 100); (0, 100)]%Q.

Definition gate : ZoneCreate.t :=
  ZoneCreate.mk "gate" [[0; 0]; [100; 0]; [100; 100]]%Q "intrusion" true None.

(** A request whose rows have three numbers. *)
Definition ramp : ZoneCreate.t :=
  ZoneCreate.mk "ramp" [[0; 0; 0]; [100; 0; 0]; [100; 100; 0]]%Q "intrusion" true None.


Definition run (boxes : list Box.t) : unit → Outcome (list Results.t) :=
  λ _, Return [Results.mk boxes].

(** A model that reports a confidence above 1. *)
Definition hot_boxes : list Box.t :=
  [Box.mk 0 (9 # 10) (0, 0, 50, 50)%Q; Box.mk 0 (11 # 10) (0, 0, 50, 50)%Q].

Definition hot : YOLODetectionService unit :=
  {| model := Some (run hot_boxes); model_loaded := true |}.

Definition yolo : YOLODetectionService unit :=
  {| model := Some (run boxes); model_loaded := true |}.

End Site.


(** * Properties *)

(** ** Numbers *)

Lemma py_le_spec a b : py_le a b = true ↔ (a <= b)%Q.
Proof. apply Qle_bool_iff. Qed.

Lemma py_lt_spec a b : py_lt a b = true ↔ (a < b)%Q.
Proof.
  unfold py_lt. rewrite negb_true_iff, <- not_true_iff_false, Qle_bool_iff.
  split; [apply Qnot_le_lt | apply Qlt_not_le].
Qed.

Lemma py_lt_false a b : py_lt a b = false ↔ (b <= a)%Q.
Proof.
  unfold py_lt. rewrite negb_false_iff. apply Qle_bool_iff.
Qed.

(** ** The effect monad *)

Lemma eff_bind_return {A B} (a : A) (l : list LogRecord) (k : A → Eff B) :
  ((Return a, l) ≫= k) = ((k a).1, l ++ (k a).2).
Proof. unfold mbind, Eff_bind. by destruct (k a). Qed.

Lemma eff_bind_raise {A B} (e : PyExc) (l : list LogRecord) (k : A → Eff B) :
  ((Raise e, l) ≫= k) = (Raise e, l).
Proof. done. Qed.

Lemma for_each_app {A S} (xs ys : list A) (body : S → A → Eff S) (s : S) :
  for_each (xs ++ ys) body s = (for_each xs body s ≫= for_each ys body).
Proof.
  revert s. induction xs as [|x xs IH]; intros s; cbn [for_each app].
  - change (mret s : Eff S) with (Return s, @nil LogRecord).
    rewrite eff_bind_return. by destruct (for_each ys body s).
  - destruct (body s x) as [[s'|e] l]; [|done].
    rewrite !eff_bind_return, IH.
    destruct (for_each xs body s') as [[s''|e] l'];
      cbn [fst snd]; rewrite ?eff_bind_return, ?eff_bind_raise; cbn [fst snd];
      by rewrite ?app_assoc.
Qed.

Section ZoneDetectionService_properties.
Context `{Runtime}.

Lemma parse_zone_coordinates_eq s :
  parse_zone_coordinates s = (Return (polygon_of s), parse_log s).
Proof.
  unfold parse_zone_coordinates, polygon_of, parse_log, try_except, lift.
  by destruct (coords ← json_loads s; coordinate_pairs coords).
Qed.

Lemma is_point_in_polygon_eq point polygon :
  is_point_in_polygon point polygon
  = (Return (contains polygon point), contains_log polygon point).
Proof.
  unfold is_point_in_polygon, contains, contains_log, try_except, lift.
  destruct (Nat.ltb_spec (length polygon) 3) as [Hlt|Hge].
  - by rewrite (proj2 (Nat.leb_gt _ _) Hlt).
  - rewrite (proj2 (Nat.leb_le _ _) Hge).
    by destruct (shapely_contains polygon point).
Qed.

Lemma ZoneAlert_make_valid z d :
  Detection.valid d →
  ZoneAlert.make (Zone.id z) (Zone.name z) (Zone.alert_type z) (Detection.confidence d)
  = Return (alert_of z d).
Proof.
  intros [H0 H1]. unfold ZoneAlert.make.
  by rewrite (proj2 (py_le_spec _ _) H0), (proj2 (py_le_spec _ _) H1).
Qed.

Lemma check_detection_eq z polygon acc d :
  Detection.valid d →
  check_detection z polygon acc d
  = (Return (acc ++ detection_alerts z polygon d), detection_log z polygon d).
Proof.
  intros Hd. unfold check_detection, detection_alerts, detection_log.
  fold (center d). rewrite is_point_in_polygon_eq, eff_bind_return.
  destruct (contains polygon (center d)).
  - by rewrite (ZoneAlert_make_valid z d Hd).
  - cbn. by rewrite !app_nil_r.
Qed.

Lemma detections_loop_eq z polygon dets acc :
  Forall Detection.valid dets →
  for_each dets (check_detection z polygon) acc
  = (Return (acc ++ (dets ≫= detection_alerts z polygon)),
     dets ≫= detection_log z polygon).
Proof.
  intros Hdets. revert acc.
  induction Hdets as [|d dets Hd _ IH]; intros acc; cbn [for_each].
  - cbn. by rewrite !app_nil_r.
  - rewrite (check_detection_eq _ _ _ _ Hd), eff_bind_return, IH.
    cbn [fst snd]. by rewrite !bind_cons, app_assoc.
Qed.

Lemma check_zone_eq dets acc z :
  Forall Detection.valid dets →
  check_zone dets acc z = (Return (acc ++ zone_alerts dets z), zone_log dets z).
Proof.
  intros Hdets. unfold check_zone, zone_alerts, zone_log.
  destruct (Zone.active z); cbn [negb].
  - rewrite parse_zone_coordinates_eq, eff_bind_return.
    destruct (polygon_of (Zone.coordinates_json z)) as [|p polygon].
    + cbn. by rewrite !app_nil_r.
    + by rewrite (detections_loop_eq _ _ _ _ Hdets).
  - cbn. by rewrite !app_nil_r.
Qed.

Lemma zones_loop_eq dets zones acc :
  Forall Detection.valid dets →
  for_each zones (check_zone dets) acc
  = (Return (acc ++ (zones ≫= zone_alerts dets)), zones ≫= zone_log dets).
Proof.
  intros Hdets. revert acc.
  induction zones as [|z zones IH]; intros acc; cbn [for_each].
  - cbn. by rewrite !app_nil_r.
  - rewrite (check_zone_eq _ _ _ Hdets), eff_bind_return, IH.
    cbn [fst snd]. by rewrite !bind_cons, app_assoc.
Qed.

Lemma check_zones_eq dets zones :
  Forall Detection.valid dets →
  check_zones dets zones
  = (Return (zones ≫= zone_alerts dets),
     match zones with [] => [Debug_no_zones] | _ => zones ≫= zone_log dets end).
Proof.
  intros Hdets. unfold check_zones. destruct zones as [|z zones]; [done|].
  by rewrite (zones_loop_eq _ _ _ Hdets).
Qed.

Lemma bind_nil_fun {A B} (l : list A) : (l ≫= λ _, @nil B) = [].
Proof. induction l as [|x l IH]; [done|]. by rewrite bind_cons, IH. Qed.

Lemma zone_alerts_expected dets z :
  zone_alerts dets z
  = (d ← dets;
     let polygon := polygon_of (Zone.coordinates_json z) in
     if Zone.active z && valid_polygon polygon && center_inside polygon d
     then [alert_of z d] else []).
Proof.
  unfold zone_alerts. destruct (Zone.active z); cbn [andb].
  - destruct (polygon_of (Zone.coordinates_json z)) as [|p polygon] eqn:Hp.
    + rewrite <- (bind_nil_fun dets) at 1. by apply list_bind_ext.
    + apply list_bind_ext; [|done]. intros d. by unfold detection_alerts.
  - rewrite <- (bind_nil_fun dets) at 1. by apply list_bind_ext.
Qed.

Lemma zones_alerts_expected dets zones :
  zones ≫= zone_alerts dets = expected_alerts dets zones.
Proof.
  unfold expected_alerts. apply list_bind_ext; [|done].
  intros z. apply zone_alerts_expected.
Qed.










Lemma is_point_in_polygon_short point polygon :
  (length polygon < 3)%nat →
  is_point_in_polygon point polygon = (Return false, [Warning_polygon_points]).
Proof.
  intros Hlen. rewrite is_point_in_polygon_eq. unfold contains, contains_log.
  by rewrite (proj2 (Nat.ltb_lt _ _) Hlen), (proj2 (Nat.leb_gt _ _) Hlen).
Qed.

(** C3: on a polygon with fewer than 3 points the containment predicate
    of the service returns [False] and logs the invalid-polygon warning,
    whatever Shapely would compute or raise; the ray-casting routine of
    the demo returns [False] before its loop. *)
Theorem degenerate_polygon_contains_nothing point polygon :
  (length polygon < 3)%nat →
  is_point_in_polygon point polygon = (Return false, [Warning_polygon_points])
  ∧ Demo.point_in_polygon point polygon = Return false.
Proof.
  intros Hlen. split; [by apply is_point_in_polygon_short|].
  unfold Demo.point_in_polygon. by rewrite (proj2 (Nat.ltb_lt _ _) Hlen).
Qed.

Lemma short_polygon_detections z polygon dets :
  (length polygon < 3)%nat →
  dets ≫= detection_alerts z polygon = []
  ∧ dets ≫= detection_log z polygon = repeat Warning_polygon_points (length dets).
Proof.
  intros Hlen.
  assert (Hc : ∀ d, contains polygon (center d) = false).
  { intros d. unfold contains. by rewrite (proj2 (Nat.leb_gt _ _) Hlen). }
  split; induction dets as [|d dets IH]; try done; rewrite bind_cons, IH.
  - unfold detection_alerts. by rewrite Hc.
  - unfold detection_log, contains_log.
    by rewrite Hc, (proj2 (Nat.ltb_lt _ _) Hlen).
Qed.

Lemma inactive_check_zone dets acc z :
  Zone.active z = false → check_zone dets acc z = (Return acc, []).
Proof. intros Hz. unfold check_zone. by rewrite Hz. Qed.

Lemma short_polygon_loop z polygon dets acc :
  (length polygon < 3)%nat →
  for_each dets (check_detection z polygon) acc
  = (Return acc, repeat Warning_polygon_points (length dets)).
Proof.
  intros Hlen. induction dets as [|d dets IH]; [done|].
  assert (Hd : check_detection z polygon acc d = (Return acc, [Warning_polygon_points])).
  { unfold check_detection.
    by rewrite (is_point_in_polygon_short _ _ Hlen). }
  cbn [for_each]. by rewrite Hd, eff_bind_return, IH.
Qed.

Lemma short_polygon_check_zone dets acc z polygon :
  Zone.active z = true →
  parse_zone_coordinates (Zone.coordinates_json z) = (Return polygon, []) →
  (1 ≤ length polygon < 3)%nat →
  check_zone dets acc z = (Return acc, repeat Warning_polygon_points (length dets)).
Proof.
  intros Hz Hparse [H1 H3]. unfold check_zone. rewrite Hz, Hparse. cbn [negb].
  destruct polygon as [|p polygon]; [simpl in H1; lia|].
  by rewrite eff_bind_return, (short_polygon_loop _ _ _ _ H3).
Qed.

(** C9: an active zone whose coordinates parse to 1 or 2 points is not
    reported as having invalid coordinates, and no detection yields an
    alert for it: its turn in the loop leaves the alerts as they are and
    logs only the invalid-polygon warning of the containment predicate,
    once per detection. *)
Theorem short_polygon_zone dets z polygon :
  Zone.active z = true →
  parse_zone_coordinates (Zone.coordinates_json z) = (Return polygon, []) →
  (1 ≤ length polygon ≤ 2)%nat →
  (∀ acc, check_zone dets acc z
          = (Return acc, repeat Warning_polygon_points (length dets)))
  ∧ result (check_zones dets [z]) = Return []
  ∧ Warning_invalid_coordinates (Zone.id z) ∉ logged (check_zones dets [z]).
Proof.
  intros Hz Hparse Hlen.
  assert (Hbody : ∀ acc, check_zone dets acc z
                         = (Return acc, repeat Warning_polygon_points (length dets))).
  { intros acc. apply (short_polygon_check_zone _ _ _ polygon); [done..|lia]. }
  split; [done|]. unfold check_zones. cbn [for_each].
  rewrite Hbody, eff_bind_return. cbn. rewrite app_nil_r. split; [done|].
  intros Hin. apply list_elem_of_In, repeat_spec in Hin. discriminate.
Qed.

Lemma for_each_skip {A S} (xs ys : list A) (x : A) (body : S → A → Eff S) (s : S) :
  (∀ s', body s' x = (Return s', [])) →
  for_each (xs ++ x :: ys) body s = for_each (xs ++ ys) body s.
Proof.
  intros Hx. rewrite !for_each_app. cbn [for_each].
  destruct (for_each xs body s) as [[s'|e] l]; [|done].
  by rewrite !eff_bind_return, Hx, eff_bind_return.
Qed.

Lemma zone_alerts_active dets zones a :
  a ∈ zones ≫= zone_alerts dets →
  ∃ z, z ∈ zones ∧ Zone.active z = true ∧ ZoneAlert.zone_id a = Zone.id z.
Proof.
  intros (z & Ha & Hz)%list_elem_of_bind. exists z. split; [done|].
  unfold zone_alerts in Ha. destruct (Zone.active z); [|by apply elem_of_nil in Ha].
  split; [done|].
  destruct (polygon_of (Zone.coordinates_json z)); [by apply elem_of_nil in Ha|].
  apply list_elem_of_bind in Ha as (d & Ha & _). unfold detection_alerts in Ha.
  destruct (contains _ _); [|by apply elem_of_nil in Ha].
  by apply list_elem_of_singleton in Ha as ->.
Qed.

(** C6: an inactive zone never contributes an alert: its turn in the
    loop changes neither the alerts nor the log, a batch gives the
    result it gives without the zone, no alert carries the identifier
    of a zone that is inactive in the batch, and the registry read of
    the engine does not return the zone. *)
Theorem inactive_zone_yields_no_alert dets z :
  Zone.active z = false →
  (∀ acc, check_zone dets acc z = (Return acc, []))
  ∧ (∀ zs1 zs2, result (check_zones dets (zs1 ++ z :: zs2))
                = result (check_zones dets (zs1 ++ zs2)))
  ∧ (∀ zones,
       Forall Detection.valid dets →
       (∀ z', z' ∈ zones → Zone.id z' = Zone.id z → Zone.active z' = false) →
       ∃ alerts, result (check_zones dets zones) = Return alerts
                 ∧ ∀ a, a ∈ alerts → ZoneAlert.zone_id a ≠ Zone.id z)
  ∧ (∀ db camera_id, z ∉ crud.get_camera_zones db camera_id true).
Proof.
  intros Hz.
  assert (Hbody : ∀ acc, check_zone dets acc z = (Return acc, [])).
  { intros acc. by apply inactive_check_zone. }
  split; [done|]. split; [|split].
  - intros zs1 zs2. unfold check_zones.
    destruct (zs1 ++ z :: zs2) as [|z0 zs] eqn:Hzs; [by destruct zs1|].
    rewrite <- Hzs, (for_each_skip _ _ _ _ _ Hbody).
    by destruct (zs1 ++ zs2).
  - intros zones Hdets Hid. eexists. split.
    { by rewrite (check_zones_eq _ _ Hdets). }
    intros a (z' & Hz' & Hactive & ->)%zone_alerts_active Heq.
    rewrite (Hid z' Hz' Heq) in Hactive. discriminate.
  - intros db camera_id Hin. unfold crud.get_camera_zones in Hin.
    apply list_elem_of_filter in Hin as [Hactive _]. congruence.
Qed.

Lemma polygon_of_parse_log s : polygon_of s ≠ [] → parse_log s = [].
Proof.
  unfold polygon_of, parse_log.
  by destruct (coords ← json_loads s; coordinate_pairs coords).
Qed.

Lemma invalid_zone_alerts dets z :
  (length (polygon_of (Zone.coordinates_json z)) < 3)%nat →
  zone_alerts dets z = [] ∧ zone_log dets z = invalid_zone_report dets z.
Proof.
  intros Hlen. unfold zone_alerts, zone_log, invalid_zone_report.
  destruct (Zone.active z); [|done].
  destruct (polygon_of (Zone.coordinates_json z)) as [|p polygon] eqn:Hp; [done|].
  destruct (short_polygon_detections z (p :: polygon) dets Hlen) as [-> ->].
  rewrite polygon_of_parse_log; [done|]. by rewrite Hp.
Qed.

(** C5 (as amended): a zone whose coordinates are unparsable or have
    fewer than 3 points yields no alert and no exception: the batch
    returns exactly the alerts of its other zones.  An active zone of
    this kind is reported, by the invalid-coordinates warning when the
    parse gives no point and by one invalid-polygon warning per
    detection when it gives 1 or 2; an inactive one is skipped before
    its coordinates are read and is not reported. *)
Theorem invalid_zone_is_skipped dets zs1 z zs2 :
  Forall Detection.valid dets →
  (length (polygon_of (Zone.coordinates_json z)) < 3)%nat →
  result (check_zones dets (zs1 ++ z :: zs2)) = Return (expected_alerts dets (zs1 ++ zs2))
  ∧ result (check_zones dets (zs1 ++ zs2)) = Return (expected_alerts dets (zs1 ++ zs2))
  ∧ logged (check_zones dets (zs1 ++ z :: zs2))
    = (zs1 ≫= zone_log dets) ++ invalid_zone_report dets z ++ (zs2 ≫= zone_log dets).
Proof.
  intros Hdets Hlen. destruct (invalid_zone_alerts dets z Hlen) as [Ha Hl].
  split; [|split].
  - rewrite (check_zones_eq _ _ Hdets). cbn [result fst].
    by rewrite <- zones_alerts_expected, !bind_app, bind_cons, Ha.
  - rewrite (check_zones_eq _ _ Hdets). cbn [result fst].
    by rewrite zones_alerts_expected.
  - rewrite (check_zones_eq _ _ Hdets). cbn [logged snd].
    destruct (zs1 ++ z :: zs2) eqn:Hzs; [by destruct zs1|].
    by rewrite <- Hzs, bind_app, bind_cons, Hl.
Qed.

(** *** [parse_zone_coordinates] *)

Lemma mapM_Return {A B} (f : A → Outcome B) (l : list A) (k : list B) :
  Forall2 (λ x y, f x = Return y) l k → mapM f l = Return k.
Proof.
  induction 1 as [|x y l k Hxy _ IH]; [done|].
  cbn [mapM]. by rewrite Hxy, IH.
Qed.

Lemma mapM_Raise {A B} (f : A → Outcome B) (l : list A) :
  Exists (λ x, ∃ e, f x = Raise e) l → ∃ e, mapM f l = Raise e.
Proof.
  induction 1 as [x l [e Hx]|x l _ [e IH]]; cbn [mapM].
  - exists e. by rewrite Hx.
  - destruct (f x); [|by eexists]. exists e. by rewrite IH.
Qed.

Lemma parse_zone_coordinates_Return s polygon :
  (coords ← json_loads s; coordinate_pairs coords) = Return polygon →
  parse_zone_coordinates s = (Return polygon, []).
Proof.
  intros Hs. rewrite parse_zone_coordinates_eq. unfold polygon_of, parse_log.
  by rewrite Hs.
Qed.

Lemma parse_zone_coordinates_Raise s e :
  (coords ← json_loads s; coordinate_pairs coords) = Raise e →
  parse_zone_coordinates s = (Return [], [Error_parse_coordinates e]).
Proof.
  intros Hs. rewrite parse_zone_coordinates_eq. unfold polygon_of, parse_log.
  by rewrite Hs.
Qed.

Lemma coordinate_pair_numbers x y :
  coordinate_pair (PyList [PyFloat x; PyFloat y]) = Return (x, y).
Proof. done. Qed.



End ZoneDetectionService_properties.

(** ** The zone stage of the detection endpoint *)

Lemma zone_violations_alerts `{Runtime} db camera_id dets :
  Forall Detection.valid dets →
  ∃ db', result (detect.zone_violations db camera_id dets)
         = Return (expected_alerts dets (crud.get_camera_zones db camera_id true), db').
Proof.
  intros Hdets. unfold detect.zone_violations.
  rewrite (check_zones_eq _ _ Hdets), eff_bind_return, zones_alerts_expected.
  by eexists.
Qed.

(** ** The registry and the cascade of [delete_zone] *)

Lemma NoDup_fmap_eq {A B} (f : A → B) (l : list A) (x y : A) :
  NoDup (f <$> l) → x ∈ l → y ∈ l → f x = f y → x = y.
Proof.
  induction l as [|a l IH]; [by intros _ ?%elem_of_nil|].
  rewrite fmap_cons, NoDup_cons, !elem_of_cons.
  intros [Ha Hl] [->|Hx] [->|Hy] Hxy; [done| | |by apply IH].
  - destruct Ha. rewrite Hxy. by apply list_elem_of_fmap_2.
  - destruct Ha. rewrite <- Hxy. by apply list_elem_of_fmap_2.
Qed.

Lemma filter_ext_elem {A} (P1 P2 : A → Prop) `{!∀ x, Decision (P1 x)}
    `{!∀ x, Decision (P2 x)} (l : list A) :
  (∀ x, x ∈ l → P1 x ↔ P2 x) → filter P1 l = filter P2 l.
Proof.
  induction l as [|a l IH]; intros Hl; [done|].
  rewrite !filter_cons, IH by (intros x Hx; apply Hl; by right).
  destruct (decide (P1 a)) as [H1|H1], (decide (P2 a)) as [H2|H2]; try done;
    destruct (Hl a); try tauto; by left.
Qed.

Lemma filter_all {A} (P : A → Prop) `{!∀ x, Decision (P x)} (l : list A) :
  (∀ x, x ∈ l → P x) → filter P l = l.
Proof.
  induction l as [|a l IH]; intros Hl; [done|].
  rewrite filter_cons, decide_True by (apply Hl; by left).
  rewrite IH; [done|]. intros x Hx. apply Hl. by right.
Qed.

Lemma filter_none {A} (P : A → Prop) `{!∀ x, Decision (P x)} (l : list A) :
  (∀ x, x ∈ l → ¬ P x) → filter P l = [].
Proof.
  induction l as [|a l IH]; intros Hl; [done|].
  rewrite filter_cons, decide_False by (apply Hl; by left).
  apply IH. intros x Hx. apply Hl. by right.
Qed.

Lemma delete_each {A} (key : A → Z) (rows selected : list A) :
  foldl (λ rows x, filter (λ a, key a ≠ key x) rows) rows selected
  = filter (λ a, key a ∉ key <$> selected) rows.
Proof.
  revert rows. induction selected as [|x selected IH]; intros rows; cbn [foldl].
  - rewrite fmap_nil. symmetry. apply filter_all.
    intros a _. apply not_elem_of_nil.
  - rewrite IH, list_filter_filter. apply list_filter_iff.
    intros a. rewrite fmap_cons, not_elem_of_cons. tauto.
Qed.

(** C2 (as amended): the registry read of the engine returns, in storage
    order, exactly the zones of the camera that are active; the
    active-hours field takes no part in it. *)
Theorem get_camera_zones_active db camera_id :
  crud.get_camera_zones db camera_id true
  = filter (λ z, Zone.camera_id z = camera_id ∧ Zone.active z = true) (Session.zones db)
  ∧ ∀ z, z ∈ crud.get_camera_zones db camera_id true
         ↔ z ∈ Session.zones db ∧ Zone.camera_id z = camera_id ∧ Zone.active z = true.
Proof.
  assert (Heq : crud.get_camera_zones db camera_id true
                = filter (λ z, Zone.camera_id z = camera_id ∧ Zone.active z = true)
                         (Session.zones db)).
  { unfold crud.get_camera_zones. rewrite list_filter_filter.
    apply list_filter_iff. tauto. }
  split; [done|]. intros z. rewrite Heq, list_elem_of_filter. tauto.
Qed.

(** C8: deleting a stored zone deletes every alert that references it and
    leaves the other alerts as they are. *)
Theorem delete_zone_cascades db z :
  z ∈ Session.zones db →
  NoDup (Alert.id <$> Session.alerts db) →
  let zone_id := Zone.id z in
  let '(deleted, db') := crud.delete_zone db zone_id in
  deleted = true
  ∧ (∀ a, a ∈ Session.alerts db' → Alert.zone_id a ≠ zone_id)
  ∧ Session.alerts db' = filter (λ a, Alert.zone_id a ≠ zone_id) (Session.alerts db)
  ∧ crud.get_zone db' zone_id = None.
Proof.
  intros Hz Hids zone_id. unfold crud.delete_zone.
  destruct (crud.get_zone db zone_id) as [zone|] eqn:Hget.
  - assert (Hzone : Zone.id zone = zone_id).
    { unfold crud.get_zone in Hget. apply head_Some_elem_of in Hget.
      by apply list_elem_of_filter in Hget as [? _]. }
    assert (Halerts :
      foldl (λ rows alert, filter (λ a, Alert.id a ≠ Alert.id alert) rows)
            (Session.alerts db)
            (filter (λ a, Alert.zone_id a = zone_id) (Session.alerts db))
      = filter (λ a, Alert.zone_id a ≠ zone_id) (Session.alerts db)).
    { rewrite delete_each. apply filter_ext_elem. intros a Ha. split.
      - intros Hnot Heq. apply Hnot. apply list_elem_of_fmap_2.
        by apply list_elem_of_filter.
      - intros Hne (b & Hid & [Hb Hin]%list_elem_of_filter)%list_elem_of_fmap.
        apply Hne. by rewrite (NoDup_fmap_eq Alert.id _ a b Hids Ha Hin Hid). }
    cbn [Session.alerts]. rewrite Halerts.
    split; [done|]. split; [|split; [done|]].
    + by intros a [? _]%list_elem_of_filter.
    + unfold crud.get_zone. cbn [Session.zones]. rewrite Hzone, list_filter_filter.
      rewrite filter_none; [done|]. tauto.
  - exfalso. unfold crud.get_zone in Hget. apply head_None in Hget.
    assert (Hin : z ∈ filter (λ z0, Zone.id z0 = zone_id) (Session.zones db)).
    { by apply list_elem_of_filter. }
    rewrite Hget in Hin. by apply elem_of_nil in Hin.
Qed.

(** ** Zone creation *)

Section zones_properties.
Context `{Runtime}.

Lemma create_camera_zones db camera_id name user_id location :
  Session.zones (crud.create_camera db camera_id name user_id location).2
  = Session.zones db.
Proof. done. Qed.

(** C7: a creation request with fewer than 3 coordinate points is
    rejected with a 4xx validation error and no zone is created: the
    route answers 422 and leaves the session as it is, and the handler,
    were it reached, answers 403 or 400 and leaves the zones as they
    are. *)
Theorem short_zone_request_rejected db camera_id body current_user :
  (length (ZoneCreate.coordinates body) < 3)%nat →
  zones.post_zone db camera_id body current_user
  = (Reject (HTTPException.mk 422 "Unprocessable Entity"), db)
  ∧ ∃ e db', zones.create_zone db camera_id body current_user = (Reject e, db')
             ∧ (HTTPException.status_code e = 400 ∨ HTTPException.status_code e = 403)
             ∧ Session.zones db' = Session.zones db.
Proof.
  intros Hlen. split.
  - unfold zones.post_zone, ZoneCreate.validate.
    by rewrite (proj2 (Nat.leb_gt _ _) Hlen), andb_false_r.
  - unfold zones.create_zone. rewrite (proj2 (Nat.ltb_lt _ _) Hlen).
    destruct (crud.get_camera db camera_id) as [camera|].
    + destruct (negb (bool_decide _)); cbn [negb]; eexists _, _; eauto.
    + cbn [negb]. eexists _, _. split; [done|]. eauto.
Qed.

End zones_properties.

(** ** The detection filter *)

Section YOLODetectionService_properties.
Context {Image : Type}.

Lemma Detection_make_valid name confidence bbox :
  (0 <= confidence)%Q → (confidence <= 1)%Q →
  Detection.make name confidence bbox = Return (Detection.mk name confidence bbox).
Proof.
  intros H0 H1. unfold Detection.make.
  by rewrite (proj2 (py_le_spec _ _) H0), (proj2 (py_le_spec _ _) H1).
Qed.

Lemma process_box_detections st box :
  (0 <= Box.conf box)%Q ∧ (Box.conf box <= 1)%Q →
  ∃ st' log,
    process_box st box = (Return st', log)
    ∧ detections st' = detections st ++ filtered_detections [box].
Proof.
  destruct box as [cls conf [[[x1 y1] x2] y2]]. cbn [Box.conf].
  intros [H0 H1]. unfold process_box, filtered_detections, person_class_id.
  rewrite filter_cons, filter_nil. cbn [Box.cls Box.conf Box.xyxy].
  assert (Hskip : ∀ (st' : tally) (lg : list LogRecord),
            detections st' = detections st →
            ∃ st'' lg', (Return st', lg) = (Return st'', lg')
                         ∧ detections st'' = detections st ++ (detection_of <$> [])).
  { intros st' lg Hst'. exists st', lg. by rewrite Hst', fmap_nil, app_nil_r. }
  case_bool_decide as Hcls.
  { rewrite decide_False by tauto. by apply Hskip. }
  destruct (py_lt conf (3 # 10)) eqn:Hconf.
  { apply py_lt_spec, Qlt_not_le in Hconf.
    rewrite decide_False by (intros (_ & ? & _); done). by apply Hskip. }
  apply py_lt_false in Hconf.
  destruct (py_lt (x2 - x1) 20) eqn:Hw.
  { apply py_lt_spec, Qlt_not_le in Hw.
    rewrite decide_False by (intros (_ & _ & ? & _); done). by apply Hskip. }
  apply py_lt_false in Hw.
  destruct (py_lt (y2 - y1) 40) eqn:Hh.
  { apply py_lt_spec, Qlt_not_le in Hh.
    rewrite decide_False by (intros (_ & _ & _ & ?); done). by apply Hskip. }
  apply py_lt_false in Hh. cbn [orb].
  rewrite decide_True by (split; [by destruct (decide (cls = 0))|done]).
  rewrite (Detection_make_valid _ _ _ H0 H1). by eexists _, _.
Qed.

Lemma filtered_detections_app boxes1 boxes2 :
  filtered_detections (boxes1 ++ boxes2)
  = filtered_detections boxes1 ++ filtered_detections boxes2.
Proof. unfold filtered_detections. by rewrite filter_app, fmap_app. Qed.

Lemma boxes_loop_detections boxes st :
  Forall (λ box, (0 <= Box.conf box)%Q ∧ (Box.conf box <= 1)%Q) boxes →
  ∃ st' log,
    for_each boxes process_box st = (Return st', log)
    ∧ detections st' = detections st ++ filtered_detections boxes.
Proof.
  intros Hboxes. revert st.
  induction Hboxes as [|box boxes Hbox _ IH]; intros st; cbn [for_each].
  - eexists _, _. split; [done|]. by rewrite app_nil_r.
  - destruct (process_box_detections st box Hbox) as (st1 & log1 & -> & Hst1).
    destruct (IH st1) as (st2 & log2 & Hloop & Hst2).
    rewrite eff_bind_return, Hloop. eexists _, _. split; [done|].
    by rewrite Hst2, Hst1, <- app_assoc, <- filtered_detections_app.
Qed.

Lemma results_loop_detections results st :
  Forall (λ box, (0 <= Box.conf box)%Q ∧ (Box.conf box <= 1)%Q)
         (concat (Results.boxes <$> results)) →
  ∃ st' log,
    for_each results (λ st result, for_each (Results.boxes result) process_box st) st
    = (Return st', log)
    ∧ detections st'
      = detections st ++ filtered_detections (concat (Results.boxes <$> results)).
Proof.
  revert st. induction results as [|r results IH]; intros st Hboxes; cbn [for_each].
  - eexists _, _. split; [done|]. by rewrite app_nil_r.
  - rewrite fmap_cons, concat_cons in Hboxes. apply Forall_app in Hboxes as [Hr Hrest].
    destruct (boxes_loop_detections _ st Hr) as (st1 & log1 & -> & Hst1).
    destruct (IH st1 Hrest) as (st2 & log2 & Hloop & Hst2).
    rewrite eff_bind_return, Hloop. eexists _, _. split; [done|].
    by rewrite Hst2, Hst1, <- app_assoc, fmap_cons, concat_cons,
               filtered_detections_app.
Qed.

(** C4: of the person boxes the model returns, [detect_objects] keeps
    exactly those with confidence at least 0.3, width at least 20 and
    height at least 40, each bound being inclusive, and keeps them in
    the order of the boxes. *)
Theorem detect_objects_filter (self : YOLODetectionService Image) image run results :
  model_loaded self = true →
  model self = Some run →
  run image = Return results →
  Forall (λ box, (0 <= Box.conf box)%Q ∧ (Box.conf box <= 1)%Q)
         (concat (Results.boxes <$> results)) →
  result (detect_objects self image)
  = Return (filtered_detections (concat (Results.boxes <$> results))).
Proof.
  intros Hloaded Hmodel Hrun Hboxes. unfold detect_objects.
  rewrite Hloaded, Hmodel, Hrun.
  destruct (results_loop_detections results (mk_tally [] 0 0 0) Hboxes)
    as (st & lg & Hloop & Hst).
  unfold lift. rewrite eff_bind_return, Hloop, eff_bind_return.
  cbn. by rewrite Hst.
Qed.

End YOLODetectionService_properties.

(** ** The ray casting of the demo never raises *)

Lemma py_eq_spec a b : py_eq a b = true ↔ (a == b)%Q.
Proof. apply Qeq_bool_iff. Qed.

Lemma level_edge_not_crossed (p1y p2y y : Q) :
  py_ne p1y p2y = false →
  py_lt (Qmin p1y p2y) y = true →
  py_le y (Qmax p1y p2y) = true →
  False.
Proof.
  unfold py_ne. rewrite negb_false_iff, py_lt_spec, py_le_spec.
  intros Heq%Qeq_bool_iff Hmin Hmax.
  assert (Hle : (p1y <= p2y)%Q) by (rewrite Heq; apply Qle_refl).
  assert (Hge : (p2y <= p1y)%Q) by (rewrite Heq; apply Qle_refl).
  rewrite (Q.min_l _ _ Hle) in Hmin. rewrite (Q.max_l _ _ Hge) in Hmax.
  apply (Qlt_not_le _ _ Hmin Hmax).
Qed.

Lemma edge_total x y polygon n st i :
  (i mod n < length polygon)%nat →
  ∃ st', Demo.edge x y polygon n st i = Return st'.
Proof.
  intros Hi. unfold Demo.edge, Demo.index.
  destruct (lookup_lt_is_Some_2 polygon _ Hi) as [[p2x p2y] ->]. cbn.
  destruct (py_lt _ y) eqn:Hmin; [|by eexists].
  destruct (py_le y _) eqn:Hmax; [|by eexists].
  destruct (py_le x _); [|by eexists].
  destruct (py_ne (Demo.p1y st) p2y) eqn:Hne.
  - unfold Demo.py_div.
    destruct (py_eq (p2y - Demo.p1y st) 0) eqn:Hzero.
    + apply py_eq_spec in Hzero. unfold py_ne in Hne.
      apply negb_true_iff, not_true_iff_false in Hne. destruct Hne.
      apply Qeq_bool_iff. symmetry.
      rewrite <- (Qplus_0_l (Demo.p1y st)), <- Hzero. ring.
    + cbn. destruct (py_eq (Demo.p1x st) p2x); by eexists.
  - destruct (level_edge_not_crossed _ _ _ Hne Hmin Hmax).
Qed.

Lemma edges_total x y polygon n idxs st :
  Forall (λ i, (i mod n < length polygon)%nat) idxs →
  ∃ st', Demo.edges x y polygon n idxs st = Return st'.
Proof.
  intros Hidxs. revert st.
  induction Hidxs as [|i idxs Hi _ IH]; intros st; cbn [Demo.edges]; [by eexists|].
  destruct (edge_total x y polygon n st i Hi) as [st' ->]. apply IH.
Qed.

Lemma point_in_polygon_total point polygon :
  ∃ b, Demo.point_in_polygon point polygon = Return b.
Proof.
  unfold Demo.point_in_polygon. destruct (length polygon <? 3)%nat eqn:Hlen; [by eexists|].
  apply Nat.ltb_ge in Hlen. destruct point as [x y].
  destruct polygon as [|[p1x p1y] polygon]; [simpl in Hlen; lia|]. cbn [Demo.index lookup].
  cbn -[Demo.edges seq length Nat.modulo].
  edestruct (edges_total x y ((p1x, p1y) :: polygon) (length ((p1x, p1y) :: polygon))
               (seq 1 (length ((p1x, p1y) :: polygon)))) as [st' ->]; [|by eexists].
  apply Forall_forall. intros i _. apply Nat.mod_upper_bound. simpl. lia.
Qed.


(** ** More on the ray casting of the demo *)

Lemma py_le_false a b : py_le a b = false ↔ (b < a)%Q.
Proof.
  unfold py_le. rewrite <- not_true_iff_false, Qle_bool_iff.
  split; [apply Qnot_le_lt | apply Qlt_not_le].
Qed.

Lemma py_lt_min a b y : py_lt (Qmin a b) y = py_lt a y || py_lt b y.
Proof.
  apply eq_true_iff_eq. rewrite orb_true_iff, !py_lt_spec. apply Q.min_lt_iff.
Qed.

Lemma py_le_max a b y : py_le y (Qmax a b) = py_le y a || py_le y b.
Proof.
  apply eq_true_iff_eq. rewrite orb_true_iff, !py_le_spec. apply Q.max_le_iff.
Qed.

(** An edge whose guard fails only moves the ray to its end point. *)
Lemma edge_not_crossed x y polygon n st i p2x p2y :
  polygon !! (i mod n)%nat = Some (p2x, p2y) →
  py_lt (Qmin (Demo.p1y st) p2y) y && py_le y (Qmax (Demo.p1y st) p2y)
    && py_le x (Qmax (Demo.p1x st) p2x) = false →
  Demo.edge x y polygon n st i
  = Return (Demo.mk_ray (Demo.inside st) p2x p2y (Demo.xinters st)).
Proof.
  intros Hi Hguard. unfold Demo.edge, Demo.index. rewrite Hi. cbn.
  destruct (py_lt _ y); [|done]. destruct (py_le y _); [|done].
  by destruct (py_le x _).
Qed.

Lemma edges_not_crossed x y polygon n idxs st :
  (0 < n)%nat → n = length polygon →
  (Demo.p1x st, Demo.p1y st) ∈ polygon →
  (∀ p q, p ∈ polygon → q ∈ polygon →
          py_lt (Qmin p.2 q.2) y && py_le y (Qmax p.2 q.2) && py_le x (Qmax p.1 q.1)
          = false) →
  ∃ st', Demo.edges x y polygon n idxs st = Return st'
         ∧ Demo.inside st' = Demo.inside st.
Proof.
  intros Hn -> Hst Hguard. revert st Hst.
  induction idxs as [|i idxs IH]; intros st Hst; cbn [Demo.edges]; [by eexists|].
  destruct (lookup_lt_is_Some_2 polygon (i mod length polygon))
    as [[p2x p2y] Hi]; [by apply Nat.mod_upper_bound; lia|].
  pose proof (list_elem_of_lookup_2 _ _ _ Hi) as Hp2.
  rewrite (edge_not_crossed _ _ _ _ _ _ _ _ Hi (Hguard _ _ Hst Hp2)). cbn.
  destruct (IH (Demo.mk_ray (Demo.inside st) p2x p2y (Demo.xinters st)) Hp2)
    as (st' & -> & Hinside). by eexists.
Qed.

(** X1: a point to the right of every vertex, above every vertex, or not
    above any vertex is outside the polygon. *)
Theorem point_in_polygon_outside_box x y polygon :
  Forall (λ p, (p.1 < x)%Q) polygon
  ∨ Forall (λ p, (p.2 < y)%Q) polygon
  ∨ Forall (λ p, (y <= p.2)%Q) polygon →
  Demo.point_in_polygon (x, y) polygon = Return false.
Proof.
  intros Hout. unfold Demo.point_in_polygon.
  destruct (length polygon <? 3)%nat eqn:Hlen; [done|]. apply Nat.ltb_ge in Hlen.
  destruct polygon as [|[p1x p1y] polygon]; [simpl in Hlen; lia|].
  cbn -[Demo.edges seq length].
  edestruct (edges_not_crossed x y ((p1x, p1y) :: polygon)
               (length ((p1x, p1y) :: polygon))
               (seq 1 (length ((p1x, p1y) :: polygon)))
               (Demo.mk_ray false p1x p1y None))
    as (st' & Hedges & Hinside); [simpl; lia|done|by left| |];
    [|cbn -[Demo.edges seq length] in *; rewrite Hedges; cbn; by rewrite Hinside].
  intros p q Hp Hq. rewrite py_lt_min, !py_le_max.
  destruct Hout as [Hx|[Hy|Hy]]; rewrite Forall_forall in *.
  - pose proof (Hx p Hp). pose proof (Hx q Hq).
    rewrite (proj2 (py_le_false x p.1)), (proj2 (py_le_false x q.1)) by done.
    by rewrite andb_false_r.
  - pose proof (Hy p Hp). pose proof (Hy q Hq).
    rewrite (proj2 (py_le_false y p.2)), (proj2 (py_le_false y q.2)) by done.
    by rewrite andb_false_r.
  - pose proof (Hy p Hp). pose proof (Hy q Hq).
    by rewrite (proj2 (py_lt_false p.2 y)), (proj2 (py_lt_false q.2 y)) by done.
Qed.


Lemma py_ne_spec a b : py_ne a b = true ↔ ¬ (a == b)%Q.
Proof.
  unfold py_ne. rewrite negb_true_iff, <- not_true_iff_false, Qeq_bool_iff. tauto.
Qed.

Lemma py_ne_false a b : py_ne a b = false ↔ (a == b)%Q.
Proof. unfold py_ne. rewrite negb_false_iff. apply Qeq_bool_iff. Qed.

Lemma py_eq_false a b : py_eq a b = false ↔ ¬ (a == b)%Q.
Proof. unfold py_eq. rewrite <- not_true_iff_false, Qeq_bool_iff. tauto. Qed.

Lemma edge_vertical x y polygon n st i p2y :
  polygon !! (i mod n)%nat = Some (Demo.p1x st, p2y) →
  ¬ (Demo.p1y st == p2y)%Q →
  ∃ xi, Demo.edge x y polygon n st i
        = Return (Demo.mk_ray
                    (xorb (Demo.inside st)
                          (py_lt (Qmin (Demo.p1y st) p2y) y
                           && py_le y (Qmax (Demo.p1y st) p2y)
                           && py_le x (Demo.p1x st)))
                    (Demo.p1x st) p2y xi).
Proof.
  intros Hi Hne. unfold Demo.edge, Demo.index, Demo.py_div. rewrite Hi. cbn.
  rewrite (py_le_max (Demo.p1x st)), orb_diag.
  rewrite (proj2 (py_ne_spec _ _) Hne).
  assert (Hzero : py_eq (p2y - Demo.p1y st) 0 = false).
  { apply py_eq_false. intros Hz. apply Hne. lra. }
  rewrite Hzero. cbn. rewrite (proj2 (py_eq_spec _ _) (Qeq_refl _)). cbn.
  destruct (py_lt (Qmin (Demo.p1y st) p2y) y), (py_le y (Qmax (Demo.p1y st) p2y)),
    (py_le x (Demo.p1x st));
    eexists; cbn; rewrite ?xorb_true_r, ?xorb_false_r; reflexivity.
Qed.

Lemma level_guard a b x y :
  py_lt (Qmin a a) y && py_le y (Qmax a a) && py_le x b = false.
Proof.
  rewrite py_lt_min, py_le_max, !orb_diag.
  destruct (py_lt a y) eqn:Hlt; [|done].
  apply py_lt_spec in Hlt. by rewrite (proj2 (py_le_false y a) Hlt).
Qed.

(** X2: on an axis-parallel rectangle the ray casting answers [True]
    exactly for the points with [x0 < x <= x1] and [y0 < y <= y1]. *)
Theorem point_in_rectangle x0 y0 x1 y1 x y :
  (x0 < x1)%Q → (y0 < y1)%Q →
  Demo.point_in_polygon (x, y) [(x0, y0); (x1, y0); (x1, y1); (x0, y1)]
  = Return (py_lt x0 x && py_le x x1 && py_lt y0 y && py_le y y1).
Proof.
  intros Hx Hy. unfold Demo.point_in_polygon.
  set (polygon := [(x0, y0); (x1, y0); (x1, y1); (x0, y1)]).
  change (length polygon) with 4%nat. cbn [Nat.ltb Nat.leb seq Demo.edges Demo.index].
  change (Demo.index polygon 0) with (Return (x0, y0)). cbn [mbind Outcome_bind].
  rewrite (edge_not_crossed x y polygon 4 (Demo.mk_ray false x0 y0 None) 1 x1 y0
             eq_refl (level_guard _ _ _ _)).
  cbn [mbind Outcome_bind Demo.inside Demo.p1x Demo.p1y Demo.xinters].
  edestruct (edge_vertical x y polygon 4 (Demo.mk_ray false x1 y0 None) 2 y1)
    as [xi2 ->]; [done|cbn; lra|]. cbn [mbind Outcome_bind Demo.inside Demo.p1x Demo.p1y].
  rewrite (edge_not_crossed x y polygon 4
             (Demo.mk_ray (xorb false (py_lt (Qmin y0 y1) y && py_le y (Qmax y0 y1)
                                       && py_le x x1)) x1 y1 xi2) 3 x0 y1
             eq_refl (level_guard _ _ _ _)).
  cbn [mbind Outcome_bind Demo.inside Demo.p1x Demo.p1y Demo.xinters].
  edestruct (edge_vertical x y polygon 4
               (Demo.mk_ray (xorb false (py_lt (Qmin y0 y1) y && py_le y (Qmax y0 y1)
                                         && py_le x x1)) x0 y1 xi2) 4 y0)
    as [xi4 ->]; [done|cbn; lra|]. cbn [mbind Outcome_bind mret Outcome_ret Demo.inside Demo.p1x Demo.p1y].
  f_equal. rewrite !py_lt_min, !py_le_max.
  destruct (py_lt x0 x) eqn:H1, (py_le x x1) eqn:H2, (py_lt y0 y) eqn:H3,
    (py_le y y1) eqn:H4, (py_lt y1 y) eqn:H5, (py_le y y0) eqn:H6,
    (py_le x x0) eqn:H7; try reflexivity; exfalso;
    repeat match goal with
           | H : py_lt _ _ = true |- _ => apply py_lt_spec in H
           | H : py_lt _ _ = false |- _ => apply py_lt_false in H
           | H : py_le _ _ = true |- _ => apply py_le_spec in H
           | H : py_le _ _ = false |- _ => apply py_le_false in H
           end; lra.
Qed.

(** ** More on the detection service *)

Lemma for_each_invariant {A S} (I : S → Prop) (xs : list A) (body : S → A → Eff S) (s : S) :
  (∀ s x, I s → ∀ s' l, body s x = (Return s', l) → I s') →
  I s → ∀ s' l, for_each xs body s = (Return s', l) → I s'.
Proof.
  intros Hbody. revert s. induction xs as [|x xs IH]; intros s Hs s' l; cbn [for_each].
  - by intros [= <- _].
  - destruct (body s x) as [[s1|e] l1] eqn:Hx; [|done].
    rewrite eff_bind_return. destruct (for_each xs body s1) as [r l2] eqn:Hxs.
    cbn [fst snd]. intros [= -> _]. eapply (IH s1); [by eapply Hbody|done].
Qed.

(** What [detect_objects] promises of a detection it returns. *)
Lemma process_box_kept st box st' l :
  process_box st box = (Return st', l) →
  detections st' = detections st
  ∨ ∃ d, detections st' = detections st ++ [d] ∧ kept_detection d.
Proof.
  destruct box as [cls conf [[[x1 y1] x2] y2]]. unfold process_box.
  cbn [Box.cls Box.conf Box.xyxy].
  case_bool_decide; [intros [= <- _]; by left|].
  destruct (py_lt conf (3 # 10)) eqn:Hconf; [intros [= <- _]; by left|].
  destruct (py_lt (x2 - x1) 20) eqn:Hw; [intros [= <- _]; by left|].
  destruct (py_lt (y2 - y1) 40) eqn:Hh; [intros [= <- _]; by left|].
  cbn [orb]. unfold Detection.make.
  destruct (py_le 0 conf) eqn:H0; [|done]. destruct (py_le conf 1) eqn:H1; [|done].
  cbn. intros [= <- _]. right. eexists. split; [done|].
  apply py_lt_false in Hconf, Hw, Hh. apply py_le_spec in H0, H1.
  by repeat split.
Qed.


Lemma boxes_loop_kept boxes st st' l :
  Forall kept_detection (detections st) →
  for_each boxes process_box st = (Return st', l) →
  Forall kept_detection (detections st').
Proof.
  intros Hst. apply (for_each_invariant (λ st, Forall kept_detection (detections st)));
    [|done].
  clear. intros st box Hst st' l [->|(d & -> & Hd)]%process_box_kept; [done|].
  apply Forall_app. by split; [|constructor].
Qed.

Lemma detect_objects_kept {Image} (self : YOLODetectionService Image) image :
  ∃ dets, result (detect_objects self image) = Return dets
          ∧ Forall kept_detection dets.
Proof.
  unfold detect_objects.
  destruct (model_loaded self); [|by exists []].
  destruct (model self) as [run|]; [|by exists []].
  destruct (run image) as [results|e]; [|by exists []].
  unfold lift. rewrite eff_bind_return. cbn [fst snd app].
  destruct (for_each results _ _) as [[st|e] lg] eqn:Hloop; [|by exists []].
  rewrite eff_bind_return. cbn. exists (detections st). split; [done|].
  revert Hloop.
  apply (for_each_invariant (λ st, Forall kept_detection (detections st))); [|done].
  intros st0 r Hst0 st1 l1. by apply boxes_loop_kept.
Qed.

(** X4: [detect_objects] never raises, whatever the model returns or
    raises, and each detection it returns is a person with confidence
    in [0.3, 1], width at least 20 and height at least 40. *)
Theorem detect_objects_returns_kept {Image} (self : YOLODetectionService Image) image :
  ∃ dets, result (detect_objects self image) = Return dets
          ∧ Forall kept_detection dets.
Proof. apply detect_objects_kept. Qed.

Lemma counted_nil st : counted st [] = st.
Proof.
  destruct st. unfold counted, filtered_detections, person_boxes. cbn.
  by rewrite app_nil_r, !Nat.add_0_r.
Qed.

Lemma counted_app st boxes1 boxes2 :
  counted (counted st boxes1) boxes2 = counted st (boxes1 ++ boxes2).
Proof.
  unfold counted, person_boxes. cbn.
  rewrite filtered_detections_app, !filter_app, !length_app, <- app_assoc.
  f_equal; lia.
Qed.

Local Ltac box_cases :=
  repeat case_decide;
  unfold low_confidence, too_small, retained in *;
  cbn [Box.cls Box.conf Box.xyxy] in *;
  try (exfalso; tauto).

Lemma process_box_counted st box :
  (0 <= Box.conf box)%Q ∧ (Box.conf box <= 1)%Q →
  process_box st box = (Return (counted st [box]), rejection box).
Proof.
  destruct st as [dets total low small], box as [cls conf [[[x1 y1] x2] y2]].
  cbn [Box.conf]. intros [H0 H1].
  unfold process_box, counted, rejection, filtered_detections, person_boxes,
    person_class_id.
  rewrite !filter_cons, !filter_nil.
  cbn [Box.cls Box.conf Box.xyxy detections total_person_detections rejected_low_conf
       rejected_small_box].
  case_bool_decide as Hcls.
  { box_cases. cbn. by rewrite app_nil_r, !Nat.add_0_r. }
  destruct (py_lt conf (3 # 10)) eqn:Hconf.
  { apply py_lt_spec in Hconf. pose proof (Qlt_not_le _ _ Hconf).
    box_cases. cbn. by rewrite app_nil_r, Nat.add_0_r, !Nat.add_1_r. }
  apply py_lt_false in Hconf. pose proof (Qle_not_lt _ _ Hconf).
  destruct (py_lt (x2 - x1) 20 || py_lt (y2 - y1) 40) eqn:Hsize.
  { apply orb_true_iff in Hsize. rewrite !py_lt_spec in Hsize.
    assert (¬ ((20 <= x2 - x1)%Q ∧ (40 <= y2 - y1)%Q)).
    { intros [Hw Hh]. destruct Hsize as [Hlt|Hlt]; by apply (Qlt_not_le _ _ Hlt). }
    box_cases. cbn. by rewrite app_nil_r, Nat.add_0_r, !Nat.add_1_r. }
  apply orb_false_iff in Hsize as [Hw%py_lt_false Hh%py_lt_false].
  pose proof (Qle_not_lt _ _ Hw). pose proof (Qle_not_lt _ _ Hh).
  rewrite (Detection_make_valid _ _ _ H0 H1).
  box_cases. cbn. by rewrite !Nat.add_0_r, Nat.add_1_r.
Qed.

Lemma boxes_loop_counted boxes st :
  Forall (λ box, (0 <= Box.conf box)%Q ∧ (Box.conf box <= 1)%Q) boxes →
  for_each boxes process_box st = (Return (counted st boxes), boxes ≫= rejection).
Proof.
  intros Hboxes. revert st.
  induction Hboxes as [|box boxes Hbox _ IH]; intros st; cbn [for_each].
  - by rewrite counted_nil.
  - rewrite (process_box_counted st box Hbox), eff_bind_return, IH. cbn [fst snd].
    by rewrite counted_app, bind_cons.
Qed.

Lemma results_loop_counted results st :
  Forall (λ box, (0 <= Box.conf box)%Q ∧ (Box.conf box <= 1)%Q)
         (concat (Results.boxes <$> results)) →
  for_each results (λ st result, for_each (Results.boxes result) process_box st) st
  = (Return (counted st (concat (Results.boxes <$> results))),
     concat (Results.boxes <$> results) ≫= rejection).
Proof.
  revert st. induction results as [|r results IH]; intros st Hboxes; cbn [for_each].
  - by rewrite counted_nil.
  - rewrite fmap_cons, concat_cons in Hboxes. apply Forall_app in Hboxes as [Hr Hrest].
    rewrite (boxes_loop_counted _ st Hr), eff_bind_return, (IH _ Hrest). cbn [fst snd].
    by rewrite counted_app, fmap_cons, concat_cons, bind_app.
Qed.

Lemma rejections_counted boxes :
  (length (filtered_detections boxes) + length (filter low_confidence boxes)
   + length (filter too_small boxes) = length (person_boxes boxes)
   ∧ length (boxes ≫= rejection)
     = length (filter low_confidence boxes) + length (filter too_small boxes))%nat.
Proof.
  unfold filtered_detections, person_boxes.
  induction boxes as [|box boxes [IHsum IHlog]]; [done|].
  rewrite bind_cons, length_app, !filter_cons, IHlog. rewrite length_fmap in *.
  assert (Hbox : (length (if decide (Box.cls box = 0%Z ∧ retained box) then [box] else [])
                  + length (if decide (low_confidence box) then [box] else [])
                  + length (if decide (too_small box) then [box] else [])
                  = length (if decide (Box.cls box = 0%Z) then [box] else [])
                  ∧ length (rejection box)
                    = length (if decide (low_confidence box) then [box] else [])
                      + length (if decide (too_small box) then [box] else []))%nat).
  { unfold rejection. destruct box as [cls conf [[[x1 y1] x2] y2]].
    cbn [Box.cls Box.conf Box.xyxy].
    destruct (Qlt_le_dec conf (3 # 10)) as [Hc|Hc];
      [pose proof (Qlt_not_le _ _ Hc)|pose proof (Qle_not_lt _ _ Hc)];
      (destruct (Qlt_le_dec (x2 - x1) 20) as [Hw|Hw];
       [pose proof (Qlt_not_le _ _ Hw)|pose proof (Qle_not_lt _ _ Hw)]);
      (destruct (Qlt_le_dec (y2 - y1) 40) as [Hh|Hh];
       [pose proof (Qlt_not_le _ _ Hh)|pose proof (Qle_not_lt _ _ Hh)]);
      box_cases; done. }
  destruct Hbox as [Hsum Hlog]. rewrite Hlog.
  destruct (decide (Box.cls box = 0 ∧ retained box)), (decide (low_confidence box)),
    (decide (too_small box)), (decide (Box.cls box = 0));
    cbn [length] in *; lia.
Qed.

(** X5: when no detection is refused by the schema, [detect_objects] logs
    one record per rejected person box, in the order of the boxes, with
    the confidence of a box rejected for its confidence and the width and
    height of a box rejected for its size, and then the summary: the
    number of detections returned, of person boxes, of boxes rejected for
    their confidence and of boxes rejected for their size; the kept and
    the rejected add up to the person boxes. *)
Theorem detect_objects_counts {Image} (self : YOLODetectionService Image) image run results :
  model_loaded self = true →
  model self = Some run →
  run image = Return results →
  Forall (λ box, (0 <= Box.conf box)%Q ∧ (Box.conf box <= 1)%Q)
         (concat (Results.boxes <$> results)) →
  let boxes := concat (Results.boxes <$> results) in
  logged (detect_objects self image)
  = (boxes ≫= rejection)
    ++ [Info_detected (length (filtered_detections boxes)) (length (person_boxes boxes))
          (length (filter low_confidence boxes)) (length (filter too_small boxes))]
  ∧ (length (filtered_detections boxes) + length (filter low_confidence boxes)
     + length (filter too_small boxes) = length (person_boxes boxes))%nat
  ∧ length (boxes ≫= rejection)
    = (length (filter low_confidence boxes) + length (filter too_small boxes))%nat.
Proof.
  intros Hloaded Hmodel Hrun Hboxes boxes. split; [|apply rejections_counted].
  unfold detect_objects. rewrite Hloaded, Hmodel, Hrun.
  unfold lift. rewrite eff_bind_return, (results_loop_counted _ _ Hboxes), eff_bind_return.
  done.
Qed.

Lemma process_box_Raise st box e l :
  process_box st box = (Raise e, l) → e = ValidationError.
Proof.
  destruct box as [cls conf [[[x1 y1] x2] y2]]. unfold process_box.
  cbn [Box.cls Box.conf Box.xyxy].
  case_bool_decide; [done|]. destruct (py_lt conf (3 # 10)); [done|].
  destruct (py_lt (x2 - x1) 20 || py_lt (y2 - y1) 40); [done|].
  unfold Detection.make. destruct (py_le 0 conf && py_le conf 1); [done|].
  by intros [= <- _].
Qed.

Lemma process_box_out_of_range st box :
  Box.cls box = 0 →
  (1 < Box.conf box)%Q →
  (let '(x1, y1, x2, y2) := Box.xyxy box in (20 <= x2 - x1)%Q ∧ (40 <= y2 - y1)%Q) →
  ∃ l, process_box st box = (Raise ValidationError, l).
Proof.
  destruct box as [cls conf [[[x1 y1] x2] y2]]. cbn [Box.cls Box.conf Box.xyxy].
  intros -> Hconf [Hw Hh]. unfold process_box, person_class_id.
  cbn [Box.cls Box.conf Box.xyxy]. rewrite bool_decide_false by (by intros []).
  rewrite (proj2 (py_lt_false conf (3 # 10))) by lra.
  rewrite (proj2 (py_lt_false (x2 - x1) 20) Hw), (proj2 (py_lt_false (y2 - y1) 40) Hh).
  cbn [orb]. unfold Detection.make.
  rewrite (proj2 (py_le_false conf 1) Hconf), andb_false_r. by eexists.
Qed.

Lemma elem_of_concat_fmap {A B} (f : A → list B) (l : list A) (y : B) :
  y ∈ concat (f <$> l) → ∃ x, y ∈ f x ∧ x ∈ l.
Proof.
  induction l as [|x l IH]; [by intros ?%elem_of_nil|].
  rewrite fmap_cons, concat_cons, elem_of_app. intros [Hy|(x' & Hy & Hx')%IH].
  - exists x. split; [done|by left].
  - exists x'. split; [done|by right].
Qed.

Lemma for_each_Raise {A S} (xs : list A) (body : S → A → Eff S) (bad : A) (err : PyExc) :
  (∀ s x e l, body s x = (Raise e, l) → e = err) →
  (∀ s, ∃ l, body s bad = (Raise err, l)) →
  bad ∈ xs →
  ∀ s, ∃ l, for_each xs body s = (Raise err, l).
Proof.
  intros Honly Hbad. induction xs as [|x xs IH]; intros Hin s; [by apply elem_of_nil in Hin|].
  cbn [for_each]. destruct (body s x) as [[s1|e] l1] eqn:Hx.
  - apply elem_of_cons in Hin as [->|Hin].
    + destruct (Hbad s) as [l Hl]. congruence.
    + destruct (IH Hin s1) as [l2 Hl2]. rewrite eff_bind_return, Hl2. by eexists.
  - rewrite (Honly _ _ _ _ Hx). by eexists.
Qed.

Lemma for_each_Raise_only {A S} (xs : list A) (body : S → A → Eff S) (err : PyExc) :
  (∀ s x e l, body s x = (Raise e, l) → e = err) →
  ∀ s e l, for_each xs body s = (Raise e, l) → e = err.
Proof.
  intros Honly. induction xs as [|x xs IH]; intros s e l; cbn [for_each]; [done|].
  destruct (body s x) as [[s1|e1] l1] eqn:Hx.
  - rewrite eff_bind_return. destruct (for_each xs body s1) as [r l2] eqn:Hxs.
    cbn [fst snd]. intros [= -> _]. by eapply IH.
  - intros [= <- _]. by eapply Honly.
Qed.

(** X6: one person box that passes the filters with a confidence above 1
    makes [detect_objects] return no detection at all: the schema
    refuses it, and the handler of the exception logs the error and
    returns the empty list. *)
Theorem detect_objects_out_of_range {Image} (self : YOLODetectionService Image)
    image run results box :
  model_loaded self = true →
  model self = Some run →
  run image = Return results →
  box ∈ concat (Results.boxes <$> results) →
  Box.cls box = 0 →
  (1 < Box.conf box)%Q →
  (let '(x1, y1, x2, y2) := Box.xyxy box in (20 <= x2 - x1)%Q ∧ (40 <= y2 - y1)%Q) →
  ∃ l, detect_objects self image
       = (Return [], l ++ [Error_during_detection ValidationError]).
Proof.
  intros Hloaded Hmodel Hrun Hin Hcls Hconf Hsize. unfold detect_objects.
  rewrite Hloaded, Hmodel, Hrun.
  apply elem_of_concat_fmap in Hin as (r & Hbox & Hr).
  assert (Hloop : ∃ l, for_each results
                         (λ st result, for_each (Results.boxes result) process_box st)
                         (mk_tally [] 0 0 0)
                       = (Raise ValidationError, l)).
  { apply (for_each_Raise _ _ r); [| |done].
    - intros s x e l. apply for_each_Raise_only. apply process_box_Raise.
    - intros s. apply (for_each_Raise _ _ box); [apply process_box_Raise| |done].
      intros s0. by apply process_box_out_of_range. }
  destruct Hloop as [l Hloop].
  unfold lift. rewrite eff_bind_return, Hloop. cbn. by eexists.
Qed.


(** ** More on the CRUD operations *)

Lemma next_id_fresh (ids : list Z) i : i ∈ ids → i < next_id ids.
Proof.
  unfold next_id. induction ids as [|j ids IH]; [by intros ?%elem_of_nil|].
  cbn [foldr]. intros [->|Hi%IH]%elem_of_cons; lia.
Qed.

Lemma next_id_not_elem (ids : list Z) : next_id ids ∉ ids.
Proof. intros Hin%next_id_fresh. lia. Qed.

Lemma head_filter_elem {A} (P : A → Prop) `{!∀ x, Decision (P x)} (l : list A) x :
  x ∈ l → P x → ∃ y, head (filter P l) = Some y ∧ P y ∧ y ∈ l.
Proof.
  intros Hx HP.
  destruct (head (filter P l)) as [y|] eqn:Hhead.
  - apply head_Some_elem_of, list_elem_of_filter in Hhead as [? ?]. by exists y.
  - apply head_None in Hhead.
    assert (x ∈ filter P l) as Hin by (by apply list_elem_of_filter).
    rewrite Hhead in Hin. by apply elem_of_nil in Hin.
Qed.

Section crud_properties.
Context `{Runtime}.

Lemma create_zone_fresh db camera_id name coordinates alert_type active active_hours :
  let '(zone, db') :=
    crud.create_zone db camera_id name coordinates alert_type active active_hours in
  (Zone.id zone ∉ (Zone.id <$> Session.zones db))
  ∧ crud.get_zone db' (Zone.id zone) = Some zone
  ∧ (∀ i, i ≠ Zone.id zone → crud.get_zone db' i = crud.get_zone db i)
  ∧ crud.get_camera_zones db' camera_id false
    = crud.get_camera_zones db camera_id false ++ [zone]
  ∧ (NoDup (Zone.id <$> Session.zones db) → NoDup (Zone.id <$> Session.zones db')).
Proof.
  unfold crud.create_zone. set (ids := Zone.id <$> Session.zones db).
  set (zone := Zone.mk _ _ _ _ _ _ _ _).
  pose proof (next_id_not_elem ids) as Hfresh.
  assert (Hnone : filter (λ z, Zone.id z = next_id ids) (Session.zones db) = []).
  { apply filter_none. intros z Hz Hid. apply Hfresh. rewrite <- Hid.
    by apply list_elem_of_fmap_2. }
  split; [done|]. split; [|split; [|split]].
  - unfold crud.get_zone. cbn [Session.zones Zone.id zone].
    rewrite filter_app, Hnone. cbn. by rewrite decide_True.
  - intros i Hi. unfold crud.get_zone. cbn [Session.zones].
    rewrite filter_app, filter_cons, filter_nil, decide_False, app_nil_r; [done|].
    intros Heq. apply Hi. by rewrite <- Heq.
  - unfold crud.get_camera_zones. cbn [Session.zones].
    rewrite filter_app, filter_cons, filter_nil. by rewrite decide_True.
  - intros Hids. cbn [Session.zones]. rewrite fmap_app. apply NoDup_app.
    split; [done|]. split; [|apply NoDup_singleton].
    intros i Hi ->%list_elem_of_singleton. by apply Hfresh.
Qed.

(** X7: the zone [create_zone] stores has a fresh identifier, is what
    [get_zone] then finds under it, comes last among the zones of its
    camera, and leaves the other lookups and the uniqueness of the
    identifiers as they were. *)
Theorem create_zone_lookup db camera_id name coordinates alert_type active active_hours :
  let '(zone, db') :=
    crud.create_zone db camera_id name coordinates alert_type active active_hours in
  (Zone.id zone ∉ (Zone.id <$> Session.zones db))
  ∧ crud.get_zone db' (Zone.id zone) = Some zone
  ∧ (∀ i, i ≠ Zone.id zone → crud.get_zone db' i = crud.get_zone db i)
  ∧ crud.get_camera_zones db' camera_id false
    = crud.get_camera_zones db camera_id false ++ [zone]
  ∧ (NoDup (Zone.id <$> Session.zones db) → NoDup (Zone.id <$> Session.zones db')).
Proof. apply create_zone_fresh. Qed.

(** X8: when every stored alert references a stored zone, creating a
    zone and deleting it at once gives back the session as it was. *)
Theorem create_then_delete_zone db camera_id name coordinates alert_type active active_hours :
  (∀ a, a ∈ Session.alerts db → Alert.zone_id a ∈ (Zone.id <$> Session.zones db)) →
  let '(zone, db') :=
    crud.create_zone db camera_id name coordinates alert_type active active_hours in
  crud.delete_zone db' (Zone.id zone) = (true, db).
Proof.
  intros Hfk.
  pose proof (create_zone_fresh db camera_id name coordinates alert_type active
                active_hours) as Hcreate.
  destruct (crud.create_zone _ _ _ _ _ _ _) as [zone db'] eqn:Hdb'.
  destruct Hcreate as (Hfresh & Hget & _).
  unfold crud.delete_zone. rewrite Hget.
  unfold crud.create_zone in Hdb'. injection Hdb' as Hzone <-.
  cbn [Session.alerts Session.zones Session.users Session.cameras Session.utcnow].
  rewrite (filter_none (λ a, Alert.zone_id a = Zone.id zone)).
  2:{ intros a Ha Hid. apply Hfresh. rewrite <- Hid. by apply Hfk. }
  cbn [foldl]. rewrite filter_app, filter_cons, filter_nil.
  rewrite decide_False by (rewrite <- Hzone; cbn; tauto).
  rewrite app_nil_r, filter_all.
  - by destruct db.
  - intros z Hz Hid. apply Hfresh. rewrite <- Hid. by apply list_elem_of_fmap_2.
Qed.

End crud_properties.

(** X9: [delete_zone] removes the zone with the given identifier and
    nothing else of the users, cameras and zones; a second deletion
    finds nothing and changes nothing. *)
Theorem delete_zone_frame db zone_id :
  let db' := (crud.delete_zone db zone_id).2 in
  Session.users db' = Session.users db
  ∧ Session.cameras db' = Session.cameras db
  ∧ Session.zones db' = filter (λ z, Zone.id z ≠ zone_id) (Session.zones db)
  ∧ (∀ i, i ≠ zone_id → crud.get_zone db' i = crud.get_zone db i)
  ∧ crud.delete_zone db' zone_id = (false, db').
Proof.
  intros db'.
  assert (Hzones : Session.zones db' = filter (λ z, Zone.id z ≠ zone_id) (Session.zones db)
                   ∧ Session.users db' = Session.users db
                   ∧ Session.cameras db' = Session.cameras db).
  { subst db'. unfold crud.delete_zone.
    destruct (crud.get_zone db zone_id) as [zone|] eqn:Hget; cbn.
    - unfold crud.get_zone in Hget.
      apply head_Some_elem_of, list_elem_of_filter in Hget as [-> _]. done.
    - unfold crud.get_zone in Hget. apply head_None in Hget.
      split; [|done]. symmetry. apply filter_all. intros z Hz Hid.
      assert (z ∈ filter (λ z, Zone.id z = zone_id) (Session.zones db)) as Hin
        by (by apply list_elem_of_filter).
      rewrite Hget in Hin. by apply elem_of_nil in Hin. }
  destruct Hzones as (Hzones & Husers & Hcameras).
  assert (Hgone : crud.get_zone db' zone_id = None).
  { unfold crud.get_zone. rewrite Hzones, list_filter_filter, filter_none; [done|].
    tauto. }
  split; [done|]. split; [done|]. split; [done|]. split.
  - intros i Hi. unfold crud.get_zone. rewrite Hzones, list_filter_filter.
    f_equal. apply list_filter_iff. intros z. split; [tauto|]. intros ->. done.
  - unfold crud.delete_zone. by rewrite Hgone.
Qed.


(** ** The evaluator and the storage of its alerts *)

Section pipeline_properties.
Context `{Runtime}.

(** X10: for detections that satisfy their schema, the evaluation of a
    batch of zones is the evaluation of its parts: the alerts of
    [zs1 ++ zs2] are those of [zs1] followed by those of [zs2]. *)
Theorem check_zones_app dets zs1 zs2 :
  Forall Detection.valid dets →
  ∃ alerts1 alerts2,
    result (check_zones dets zs1) = Return alerts1
    ∧ result (check_zones dets zs2) = Return alerts2
    ∧ result (check_zones dets (zs1 ++ zs2)) = Return (alerts1 ++ alerts2).
Proof.
  intros Hdets. rewrite !(check_zones_eq _ _ Hdets). cbn [result fst].
  eexists _, _. split; [done|]. split; [done|]. by rewrite bind_app.
Qed.

Lemma save_alerts_rows zones camera_id alerts db :
  Forall (λ a, ∃ z, z ∈ zones ∧ ZoneAlert.zone_id a = Zone.id z) alerts →
  let db' := foldl (detect.save_alert zones camera_id) db alerts in
  ∃ rows,
    Session.alerts db' = Session.alerts db ++ rows
    ∧ Forall2 (stored_as camera_id) rows alerts
    ∧ Session.users db' = Session.users db
    ∧ Session.cameras db' = Session.cameras db
    ∧ Session.zones db' = Session.zones db
    ∧ (NoDup (Alert.id <$> Session.alerts db) → NoDup (Alert.id <$> Session.alerts db')).
Proof.
  intros Halerts. revert db.
  induction Halerts as [|a alerts (z & Hz & Hid) _ IH]; intros db; cbn [foldl].
  - exists []. rewrite app_nil_r. by repeat split.
  - destruct (head_filter_elem (λ z, Zone.id z = ZoneAlert.zone_id a) zones z Hz)
      as (z' & Hhead & Hz'id & _); [done|].
    pose (row := Alert.mk (next_id (Alert.id <$> Session.alerts db)) camera_id (Zone.id z')
                          "person" (ZoneAlert.confidence a) None None None
                          (Session.utcnow db)).
    pose (db1 := Session.mk (Session.users db) (Session.cameras db) (Session.zones db)
                            (Session.alerts db ++ [row]) (Session.utcnow db)).
    assert (Hstep : detect.save_alert zones camera_id db a = db1).
    { unfold detect.save_alert. by rewrite Hhead. }
    rewrite Hstep.
    destruct (IH db1) as (rows & Halerts' & Hrows & Husers & Hcameras & Hzones & Hids).
    exists (row :: rows). cbn [Session.alerts Session.users Session.cameras Session.zones db1]
      in Halerts', Husers, Hcameras, Hzones.
    split; [by rewrite Halerts', <- app_assoc|].
    split; [constructor; [by repeat split|done]|].
    split; [exact Husers|]. split; [exact Hcameras|]. split; [exact Hzones|].
    intros Hnodup. apply Hids. cbn [db1 Session.alerts]. rewrite fmap_app. apply NoDup_app.
    split; [done|]. split; [|apply NoDup_singleton].
    intros i Hi ->%list_elem_of_singleton. by apply (next_id_not_elem _ Hi).
Qed.

Lemma zone_violations_rows db camera_id dets :
  Forall Detection.valid dets →
  ∃ alerts db' rows l,
    detect.zone_violations db camera_id dets = (Return (alerts, db'), l)
    ∧ alerts = expected_alerts dets (crud.get_camera_zones db camera_id true)
    ∧ Session.alerts db' = Session.alerts db ++ rows
    ∧ Forall2 (stored_as camera_id) rows alerts
    ∧ Session.users db' = Session.users db
    ∧ Session.cameras db' = Session.cameras db
    ∧ Session.zones db' = Session.zones db
    ∧ (NoDup (Alert.id <$> Session.alerts db) → NoDup (Alert.id <$> Session.alerts db')).
Proof.
  intros Hdets. unfold detect.zone_violations.
  rewrite (check_zones_eq _ _ Hdets), eff_bind_return. cbn [result fst snd].
  set (zones := crud.get_camera_zones db camera_id true).
  destruct (save_alerts_rows zones camera_id (zones ≫= zone_alerts dets) db)
    as (rows & Hrows); [|].
  { apply Forall_forall. intros a (z & ? & _ & ?)%zone_alerts_active. by exists z. }
  eexists _, _, rows, _. split; [done|]. split; [by rewrite zones_alerts_expected|].
  exact Hrows.
Qed.

(** X11: for detections that satisfy their schema, the zone stage of the
    endpoint does not raise; it stores one row per alert it returns, in
    order, with the camera, the zone and the confidence of the alert,
    after the rows already stored; it changes no user, camera or zone
    and keeps the identifiers of the alerts unique. *)
Theorem zone_violations_stores db camera_id dets :
  Forall Detection.valid dets →
  ∃ alerts db' rows,
    result (detect.zone_violations db camera_id dets) = Return (alerts, db')
    ∧ alerts = expected_alerts dets (crud.get_camera_zones db camera_id true)
    ∧ Session.alerts db' = Session.alerts db ++ rows
    ∧ Forall2 (stored_as camera_id) rows alerts
    ∧ Session.users db' = Session.users db
    ∧ Session.cameras db' = Session.cameras db
    ∧ Session.zones db' = Session.zones db
    ∧ (NoDup (Alert.id <$> Session.alerts db) → NoDup (Alert.id <$> Session.alerts db')).
Proof.
  intros Hdets.
  destruct (zone_violations_rows db camera_id dets Hdets)
    as (alerts & db' & rows & l & Heq & Hrest).
  exists alerts, db', rows. by rewrite Heq.
Qed.

End pipeline_properties.


(** ** The detection endpoint *)

Lemma filter_fmap_length {A} (P : A → Prop) `{!∀ x, Decision (P x)} (f : A → A) (l : list A) :
  (∀ x, P (f x) ↔ P x) → length (filter P (f <$> l)) = length (filter P l).
Proof.
  intros Hf. induction l as [|x l IH]; [done|].
  rewrite fmap_cons, !filter_cons.
  destruct (decide (P (f x))) as [HP|HP], (decide (P x)) as [HP'|HP'];
    cbn; rewrite ?IH; try done; exfalso; apply (Hf x) in HP || apply (Hf x) in HP'; done.
Qed.

Lemma update_camera_last_frame_frame db camera_id :
  let db' := crud.update_camera_last_frame db camera_id in
  Session.users db' = Session.users db
  ∧ Session.zones db' = Session.zones db
  ∧ Session.alerts db' = Session.alerts db
  ∧ ∀ user_id, length (crud.get_user_cameras db' user_id)
               = length (crud.get_user_cameras db user_id).
Proof.
  unfold crud.update_camera_last_frame.
  destruct (crud.get_camera db camera_id) as [camera|]; [|done].
  cbn. repeat split. intros user_id. unfold crud.get_user_cameras. cbn [Session.cameras].
  apply filter_fmap_length. intros c. by case_bool_decide.
Qed.

Section detect_properties.
Context `{Runtime} {Image : Type}.

(** The session after the camera steps of the endpoint. *)
Lemma camera_steps db camera_id (current_user : User.t) :
  let db1 := crud.update_camera_last_frame
               (match crud.get_camera db camera_id with
                | Some _ => db
                | None => (crud.create_camera db camera_id ("Camera " ++ camera_id)
                             (User.id current_user) None).2
                end) camera_id in
  Session.users db1 = Session.users db
  ∧ Session.zones db1 = Session.zones db
  ∧ Session.alerts db1 = Session.alerts db
  ∧ ((auth_service.check_camera_limit db current_user camera_id).1 = true →
     within_limit db current_user → within_limit db1 current_user).
Proof.
  intros db1. subst db1.
  set (db0 := match crud.get_camera db camera_id with Some _ => db | None => _ end).
  destruct (update_camera_last_frame_frame db0 camera_id) as (-> & -> & -> & Hlen).
  assert (Hdb0 : Session.users db0 = Session.users db
                 ∧ Session.zones db0 = Session.zones db
                 ∧ Session.alerts db0 = Session.alerts db).
  { subst db0. by destruct (crud.get_camera db camera_id). }
  destruct Hdb0 as (-> & -> & ->). repeat split.
  unfold within_limit. rewrite Hlen. intros Hallowed Hlimit.
  subst db0. destruct (crud.get_camera db camera_id) as [camera|] eqn:Hcam; [done|].
  unfold auth_service.check_camera_limit in Hallowed.
  unfold crud.get_user_cameras in *. cbn [crud.create_camera snd Session.cameras].
  rewrite filter_app, length_app, filter_cons, filter_nil.
  case_bool_decide as Hin.
  { exfalso. apply list_elem_of_fmap in Hin as (c & Hid & Hc).
    apply list_elem_of_filter in Hc as [_ Hc].
    unfold crud.get_camera in Hcam. apply head_None in Hcam.
    assert (c ∈ filter (λ c, Camera.id c = camera_id) (Session.cameras db)) as Hc'
      by (by apply list_elem_of_filter).
    rewrite Hcam in Hc'. by apply elem_of_nil in Hc'. }
  case_bool_decide as Hfull; [done|].
  rewrite decide_True by done. cbn. lia.
Qed.

Lemma detect_endpoint_cases (yolo : YOLODetectionService Image) db image camera_id
    current_user :
  ∃ response db' l,
    detect.detect_objects yolo db image camera_id current_user = (Return (response, db'), l)
    ∧ Session.users db' = Session.users db
    ∧ Session.zones db' = Session.zones db
    ∧ (within_limit db current_user → within_limit db' current_user)
    ∧ ((auth_service.check_camera_limit db current_user camera_id).1 = true →
       Session.cameras db'
       = Session.cameras
           (crud.update_camera_last_frame
              (match crud.get_camera db camera_id with
               | Some _ => db
               | None => (crud.create_camera db camera_id ("Camera " ++ camera_id)
                            (User.id current_user) None).2
               end) camera_id))
    ∧ match response with
      | Reject e =>
          (HTTPException.status_code e = 403
           ∧ (auth_service.check_camera_limit db current_user camera_id).1 = false
           ∧ db' = db)
          ∨ (HTTPException.status_code e = 400
             ∧ (∃ exn, image = Raise exn)
             ∧ Session.alerts db' = Session.alerts db)
      | Respond code body =>
          code = 200
          ∧ DetectionResponse.camera_id body = camera_id
          ∧ (∃ pil_image, image = Return pil_image
                          ∧ result (detect_objects yolo pil_image)
                            = Return (DetectionResponse.detections body))
          ∧ Forall kept_detection (DetectionResponse.detections body)
          ∧ DetectionResponse.alerts body
            = expected_alerts (DetectionResponse.detections body)
                (crud.get_camera_zones db camera_id true)
          ∧ ∃ rows, Session.alerts db' = Session.alerts db ++ rows
                    ∧ Forall2 (stored_as camera_id) rows (DetectionResponse.alerts body)
      end.
Proof.
  unfold detect.detect_objects.
  pose proof (camera_steps db camera_id current_user) as Hsteps.
  destruct (auth_service.check_camera_limit db current_user camera_id)
    as [allowed message] eqn:Hlimit.
  destruct allowed; cbn [negb fst] in *.
  2:{ eexists _, _, _. split; [done|]. do 4 (split; [done|]). left. by repeat split. }
  set (db1 := crud.update_camera_last_frame _ _) in *.
  destruct Hsteps as (Husers & Hzones & Halerts & Hwithin).
  destruct image as [pil_image|exn].
  2:{ eexists _, _, _. split; [done|]. do 2 (split; [done|]).
      split; [by apply Hwithin|]. split; [done|].
      right. repeat split; [by eexists|done]. }
  destruct (detect_objects_kept yolo pil_image) as (dets & Hdets & Hkept).
  assert (Hvalid : Forall Detection.valid dets).
  { eapply Forall_impl; [exact Hkept|]. by intros d (_ & ? & _). }
  destruct (zone_violations_rows db1 camera_id dets Hvalid)
    as (alerts & db' & rows & l & Hstage & Halerts_eq & Hrows & Hstored & Husers'
        & Hcameras' & Hzones' & _).
  assert (Hz : crud.get_camera_zones db1 camera_id true
               = crud.get_camera_zones db camera_id true).
  { unfold crud.get_camera_zones. by rewrite Hzones. }
  rewrite Hz in Halerts_eq.
  destruct (detect_objects yolo pil_image) as [r ldet] eqn:Hyolo.
  cbn [result fst] in Hdets. subst r.
  unfold try_except. rewrite eff_bind_return, Hstage.
  cbn -[expected_alerts crud.get_camera_zones].
  eexists _, _, _. split; [done|].
  split; [by rewrite Husers'|]. split; [by rewrite Hzones'|]. split.
  { unfold within_limit, crud.get_user_cameras in *. rewrite Hcameras'. exact (Hwithin eq_refl). }
  split; [done|]. split; [done|]. split; [done|].
  split; [eexists; split; [done|]; by rewrite Hyolo|]. split; [done|].
  split; [done|]. exists rows. by rewrite Hrows, Halerts.
Qed.

Lemma detect_endpoint_answer (yolo : YOLODetectionService Image) db image camera_id
    current_user :
  ∃ response db' l,
    detect.detect_objects yolo db image camera_id current_user = (Return (response, db'), l)
    ∧ match auth_service.check_camera_limit db current_user camera_id, image with
      | (false, message), _ =>
          response = Reject (HTTPException.mk 403 message) ∧ db' = db
      | (true, _), Raise _ =>
          response = Reject (HTTPException.mk 400 "Invalid image file")
          ∧ Session.alerts db' = Session.alerts db
      | (true, _), Return pil_image =>
          ∃ body,
            response = Respond 200 body
            ∧ DetectionResponse.camera_id body = camera_id
            ∧ result (detect_objects yolo pil_image)
              = Return (DetectionResponse.detections body)
            ∧ Forall kept_detection (DetectionResponse.detections body)
            ∧ DetectionResponse.alerts body
              = expected_alerts (DetectionResponse.detections body)
                  (crud.get_camera_zones db camera_id true)
            ∧ ∃ rows, Session.alerts db' = Session.alerts db ++ rows
                      ∧ Forall2 (stored_as camera_id) rows (DetectionResponse.alerts body)
      end.
Proof.
  unfold detect.detect_objects.
  pose proof (camera_steps db camera_id current_user) as Hsteps.
  destruct (auth_service.check_camera_limit db current_user camera_id)
    as [allowed message] eqn:Hlimit.
  destruct allowed; cbn [negb fst] in *.
  2:{ by eexists _, _, _. }
  set (db1 := crud.update_camera_last_frame _ _) in *.
  destruct Hsteps as (Husers & Hzones & Halerts & Hwithin).
  destruct image as [pil_image|exn].
  2:{ by eexists _, _, _. }
  destruct (detect_objects_kept yolo pil_image) as (dets & Hdets & Hkept).
  assert (Hvalid : Forall Detection.valid dets).
  { eapply Forall_impl; [exact Hkept|]. by intros d (_ & ? & _). }
  destruct (zone_violations_rows db1 camera_id dets Hvalid)
    as (alerts & db' & rows & l & Hstage & Halerts_eq & Hrows & Hstored & _).
  assert (Hz : crud.get_camera_zones db1 camera_id true
               = crud.get_camera_zones db camera_id true).
  { unfold crud.get_camera_zones. by rewrite Hzones. }
  rewrite Hz in Halerts_eq.
  destruct (detect_objects yolo pil_image) as [r ldet] eqn:Hyolo.
  cbn [result fst] in Hdets. subst r.
  unfold try_except. rewrite eff_bind_return, Hstage.
  cbn -[expected_alerts crud.get_camera_zones].
  eexists _, _, _. split; [done|]. eexists. split; [done|].
  cbn -[expected_alerts crud.get_camera_zones].
  do 4 (split; [done|]). exists rows. by rewrite Hrows, Halerts.
Qed.

(** X12: with a session that does not fail, the detection endpoint always
    answers, and its handler of unexpected exceptions (500) is never
    reached, since both services handle their own.  When the camera
    limit refuses the camera the answer is 403 with the message of the
    limit, and the session is as it was; otherwise, when the image cannot
    be read, the answer is 400 and no alert is stored; otherwise the
    answer is 200 with the detections of the service, the alerts of the
    active zones of the camera for these detections, and one stored row
    per alert. *)
Theorem detect_endpoint_responses (yolo : YOLODetectionService Image) db image camera_id
    current_user :
  ∃ response db',
    result (detect.detect_objects yolo db image camera_id current_user)
    = Return (response, db')
    ∧ match auth_service.check_camera_limit db current_user camera_id, image with
      | (false, message), _ =>
          response = Reject (HTTPException.mk 403 message) ∧ db' = db
      | (true, _), Raise _ =>
          response = Reject (HTTPException.mk 400 "Invalid image file")
          ∧ Session.alerts db' = Session.alerts db
      | (true, _), Return pil_image =>
          ∃ body,
            response = Respond 200 body
            ∧ DetectionResponse.camera_id body = camera_id
            ∧ result (detect_objects yolo pil_image)
              = Return (DetectionResponse.detections body)
            ∧ Forall kept_detection (DetectionResponse.detections body)
            ∧ DetectionResponse.alerts body
              = expected_alerts (DetectionResponse.detections body)
                  (crud.get_camera_zones db camera_id true)
            ∧ ∃ rows, Session.alerts db' = Session.alerts db ++ rows
                      ∧ Forall2 (stored_as camera_id) rows (DetectionResponse.alerts body)
      end.
Proof.
  destruct (detect_endpoint_answer yolo db image camera_id current_user)
    as (response & db' & l & Heq & Hresponse).
  exists response, db'. by rewrite Heq.
Qed.

(** X13: a user whose cameras are within the allowance of the plan is
    still within it after a call of the detection endpoint, whatever
    the camera and the outcome; the endpoint changes no user and no
    zone. *)
Theorem detect_endpoint_keeps_limit (yolo : YOLODetectionService Image) db image
    camera_id current_user :
  within_limit db current_user →
  ∃ response db',
    result (detect.detect_objects yolo db image camera_id current_user)
    = Return (response, db')
    ∧ within_limit db' current_user
    ∧ Session.users db' = Session.users db
    ∧ Session.zones db' = Session.zones db.
Proof.
  intros Hlimit.
  destruct (detect_endpoint_cases yolo db image camera_id current_user)
    as (response & db' & l & Heq & Husers & Hzones & Hwithin & _).
  exists response, db'. rewrite Heq. repeat split; [by apply Hwithin|done..].
Qed.

End detect_properties.


(** ** Authentication *)

Lemma rev_app_rev_app k w acc :
  String.rev_app (String.rev_app k w) acc = String.rev_app w (k ++ acc)%string.
Proof.
  revert w. induction k as [|c k IH]; intros w; [done|].
  cbn [String.rev_app]. rewrite IH.
  by change (String c k ++ acc)%string with (String c (k ++ acc)%string).
Qed.

Lemma string_app_nil_r (s : string) : (s ++ "")%string = s.
Proof.
  induction s as [|c s IH]; [done|].
  change (String c s ++ "")%string with (String c (s ++ "")%string). by rewrite IH.
Qed.

Lemma split_from_word key w :
  has_space key = false →
  dependencies.split_from w key
  = match String.rev_app key w with
    | EmptyString => []
    | String _ _ as word => [String.rev word]
    end.
Proof.
  revert w. induction key as [|c key IH]; intros w Hkey; [by destruct w|].
  cbn [has_space] in Hkey. apply orb_false_iff in Hkey as [Hc Hkey].
  cbn [dependencies.split_from String.rev_app]. rewrite Hc. by apply IH.
Qed.

Lemma split_word key :
  key ≠ "" → has_space key = false → dependencies.split key = [key].
Proof.
  intros Hne Hkey. unfold dependencies.split. rewrite (split_from_word _ _ Hkey).
  destruct (String.rev_app key "") as [|c word] eqn:Hrev.
  - exfalso. apply Hne.
    pose proof (rev_app_rev_app key "" "") as Hk. rewrite Hrev in Hk. cbn in Hk.
    by rewrite string_app_nil_r in Hk.
  - unfold String.rev. rewrite <- Hrev, rev_app_rev_app. cbn.
    by rewrite string_app_nil_r.
Qed.

(** X14: whoever [get_current_user] lets in is a stored user whose status
    is active and whose API key is the second word of a header whose
    first word is "bearer" in any case; every refusal is a 401. *)
Theorem get_current_user_sound authorization db :
  match dependencies.get_current_user authorization db with
  | inr user =>
      user ∈ Session.users db
      ∧ User.status user = "active"
      ∧ ∃ header scheme,
          authorization = Some header
          ∧ dependencies.split header = [scheme; User.api_key user]
          ∧ dependencies.lower scheme = "bearer"
  | inl e => HTTPException.status_code e = 401
  end.
Proof.
  unfold dependencies.get_current_user.
  destruct authorization as [[|c header]|]; [done| |done].
  destruct (dependencies.split (String c header)) as [|scheme [|api_key [|? ?]]] eqn:Hsplit;
    try done.
  case_bool_decide as Hscheme; [done|].
  unfold auth_service.verify_api_key, crud.get_user_by_api_key.
  destruct (head _) as [user|] eqn:Huser; [|done].
  case_bool_decide as Hstatus; [done|].
  apply head_Some_elem_of, list_elem_of_filter in Huser as [Hkey Hin].
  split; [done|]. split; [by destruct (decide (User.status user = "active"))|].
  exists (String c header), scheme. rewrite Hkey.
  split; [done|]. split; [done|]. by destruct (decide (dependencies.lower scheme = "bearer")).
Qed.

Lemma bearer_header_verified db key :
  key ≠ "" → has_space key = false →
  dependencies.get_current_user (Some ("Bearer " ++ key)%string) db
  = match auth_service.verify_api_key db key with
    | Some user => inr user
    | None => inl (dependencies.unauthorized "Invalid or inactive API key")
    end.
Proof.
  intros Hne Hkey.
  assert (Hsplit : dependencies.split ("Bearer " ++ key)%string = ["Bearer"; key]).
  { unfold dependencies.split.
    change (["Bearer"] ++ dependencies.split_from "" key = ["Bearer"; key]).
    pose proof (split_word key Hne Hkey) as Hk. unfold dependencies.split in Hk.
    by rewrite Hk. }
  unfold dependencies.get_current_user.
  destruct ("Bearer " ++ key)%string as [|c header]; [discriminate Hsplit|].
  rewrite Hsplit. by rewrite bool_decide_false by (by intros []).
Qed.

(** X15: for a key without white space, the header "Bearer <key>" is
    accepted exactly when [verify_api_key] accepts the key. *)
Theorem get_current_user_bearer db key :
  key ≠ "" → has_space key = false →
  dependencies.get_current_user (Some ("Bearer " ++ key)%string) db
  = match auth_service.verify_api_key db key with
    | Some user => inr user
    | None => inl (dependencies.unauthorized "Invalid or inactive API key")
    end.
Proof. apply bearer_header_verified. Qed.

(** X16: a user created under an e-mail address and an API key that no
    stored user has (both columns are unique) gets a fresh identifier
    and is the user that [verify_api_key] and the header "Bearer <key>"
    then give; the other keys are verified as before. *)
Theorem create_user_then_verify db email api_key plan cameras_allowed :
  email ∉ (User.email <$> Session.users db) →
  crud.get_user_by_api_key db api_key = None →
  let '(user, db') := crud.create_user db email api_key plan cameras_allowed in
  (User.id user ∉ (User.id <$> Session.users db))
  ∧ auth_service.verify_api_key db' api_key = Some user
  ∧ (∀ key, key ≠ api_key →
            auth_service.verify_api_key db' key = auth_service.verify_api_key db key)
  ∧ (api_key ≠ "" → has_space api_key = false →
     dependencies.get_current_user (Some ("Bearer " ++ api_key)%string) db' = inr user).
Proof.
  intros _ Hunused. unfold crud.create_user.
  set (user := User.mk _ _ _ _ _ _ _). set (db' := Session.mk _ _ _ _ _).
  assert (Hverify : auth_service.verify_api_key db' api_key = Some user).
  { unfold auth_service.verify_api_key, crud.get_user_by_api_key in *.
    apply head_None in Hunused. subst db'. cbn [Session.users].
    rewrite filter_app, Hunused, filter_cons, decide_True by done. done. }
  split; [apply next_id_not_elem|]. split; [done|]. split.
  - intros key Hkey. unfold auth_service.verify_api_key, crud.get_user_by_api_key.
    subst db'. cbn [Session.users].
    rewrite filter_app, filter_cons, decide_False by (by intros Heq; apply Hkey).
    by rewrite filter_nil, app_nil_r.
  - intros Hne Hspace. by rewrite (bearer_header_verified db' api_key Hne Hspace), Hverify.
Qed.


(** ** The zone endpoints and the stored coordinates *)

Lemma mapM_Return_inv {A B} (f : A → Outcome B) (l : list A) (k : list B) :
  mapM f l = Return k → Forall2 (λ x y, f x = Return y) l k.
Proof.
  revert k. induction l as [|x l IH]; intros k; cbn [mapM].
  - intros [= <-]. constructor.
  - destruct (f x) as [y|e] eqn:Hx; [|done]. cbn.
    destruct (mapM f l) as [k'|e]; [|done]. cbn. intros [= <-].
    constructor; [done|by apply IH].
Qed.

Lemma mapM_snoc {A B} (f : A → Outcome B) (l : list A) (x : A) (k : list B) (y : B) :
  mapM f l = Return k → f x = Return y → mapM f (l ++ [x]) = Return (k ++ [y]).
Proof.
  intros Hl%mapM_Return_inv Hx. apply mapM_Return, Forall2_app; [done|].
  by repeat constructor.
Qed.

Section zone_endpoint_properties.
Context `{Runtime}.

Lemma get_camera_created db camera_id name user_id location :
  crud.get_camera db camera_id = None →
  crud.get_camera (crud.create_camera db camera_id name user_id location).2 camera_id
  = Some (crud.create_camera db camera_id name user_id location).1.
Proof.
  unfold crud.get_camera. intros Hnone%head_None. cbn [crud.create_camera snd fst Session.cameras].
  rewrite filter_app, Hnone, filter_cons, decide_True; done.
Qed.

Lemma create_zone_new_camera db camera_id body current_user :
  crud.get_camera db camera_id = None →
  zones.create_zone db camera_id body current_user
  = zones.create_zone (crud.create_camera db camera_id ("Camera " ++ camera_id)
                         (User.id current_user) None).2 camera_id body current_user.
Proof.
  intros Hnone. unfold zones.create_zone at 2.
  rewrite (get_camera_created _ _ _ _ _ Hnone).
  cbn [crud.create_camera fst snd Camera.user_id].
  rewrite bool_decide_false by (by intros []).
  unfold zones.create_zone. by rewrite Hnone.
Qed.

Lemma create_zone_on_own_camera db camera_id camera body current_user :
  ZoneCreate.validate body = true →
  crud.get_camera db camera_id = Some camera →
  Camera.user_id camera = User.id current_user →
  json_loads (json_dumps (ZoneCreate.coordinates body)) ≫= validate_coordinates
  = Return (ZoneCreate.coordinates body) →
  ∃ zone response db',
    zones.create_zone db camera_id body current_user = (Respond 201 response, db')
    ∧ zones.zone_response zone = Return response
    ∧ zone = Zone.mk (ZoneResponse.id response) camera_id (ZoneCreate.name body)
               (json_dumps (ZoneCreate.coordinates body)) (ZoneCreate.alert_type body)
               (ZoneCreate.active body) (ZoneCreate.active_hours body)
               (ZoneResponse.created_at response)
    ∧ (Zone.id zone ∉ (Zone.id <$> Session.zones db))
    ∧ crud.get_zone db' (Zone.id zone) = Some zone
    ∧ crud.get_camera_zones db' camera_id false
      = crud.get_camera_zones db camera_id false ++ [zone]
    ∧ crud.get_camera db' camera_id = Some camera.
Proof.
  intros Hvalid Hcam Howned Hjson.
  assert (Hlen : (length (ZoneCreate.coordinates body) <? 3)%nat = false).
  { unfold ZoneCreate.validate in Hvalid. apply andb_true_iff in Hvalid as [_ Hlen].
    apply Nat.leb_le in Hlen. by apply Nat.ltb_ge. }
  pose proof (create_zone_fresh db camera_id (ZoneCreate.name body)
                (ZoneCreate.coordinates body) (ZoneCreate.alert_type body)
                (ZoneCreate.active body) (ZoneCreate.active_hours body)) as Hcreate.
  unfold zones.create_zone.
  rewrite Hcam, bool_decide_false by (by rewrite Howned; intros []). cbn [negb].
  rewrite Hlen. unfold crud.create_zone in *.
  destruct Hcreate as (Hfresh & Hget & _ & Hcamzones & _).
  cbn [Zone.coordinates_json Zone.id Zone.camera_id Zone.name Zone.alert_type
       Zone.active Zone.active_hours Zone.created_at] in *.
  rewrite Hjson. eexists _, _, _. split; [done|].
  cbn [ZoneResponse.id ZoneResponse.created_at].
  split; [|split; [done|]].
  { unfold zones.zone_response. cbn [Zone.coordinates_json]. by rewrite Hjson. }
  cbn [Zone.id]. by repeat (split; [done|]).
Qed.

Lemma post_zone_accepted db camera_id body current_user :
  ZoneCreate.validate body = true →
  (∀ camera, crud.get_camera db camera_id = Some camera →
             Camera.user_id camera = User.id current_user) →
  json_loads (json_dumps (ZoneCreate.coordinates body)) ≫= validate_coordinates
  = Return (ZoneCreate.coordinates body) →
  ∃ zone response db' camera,
    zones.post_zone db camera_id body current_user = (Respond 201 response, db')
    ∧ zones.zone_response zone = Return response
    ∧ zone = Zone.mk (ZoneResponse.id response) camera_id (ZoneCreate.name body)
               (json_dumps (ZoneCreate.coordinates body)) (ZoneCreate.alert_type body)
               (ZoneCreate.active body) (ZoneCreate.active_hours body)
               (ZoneResponse.created_at response)
    ∧ (Zone.id zone ∉ (Zone.id <$> Session.zones db))
    ∧ crud.get_zone db' (Zone.id zone) = Some zone
    ∧ crud.get_camera_zones db' camera_id false
      = crud.get_camera_zones db camera_id false ++ [zone]
    ∧ crud.get_camera db' camera_id = Some camera
    ∧ Camera.user_id camera = User.id current_user.
Proof.
  intros Hvalid Howner Hjson. unfold zones.post_zone. rewrite Hvalid.
  destruct (crud.get_camera db camera_id) as [camera|] eqn:Hcam.
  - destruct (create_zone_on_own_camera db camera_id camera body current_user Hvalid Hcam
                (Howner _ eq_refl) Hjson) as (zone & response & db' & Hpost).
    pose proof (Howner _ eq_refl) as Howned. exists zone, response, db', camera.
    by destruct Hpost as (? & ? & ? & ? & ? & ? & ?).
  - rewrite (create_zone_new_camera _ _ _ _ Hcam).
    destruct (create_zone_on_own_camera _ camera_id _ body current_user Hvalid
                (get_camera_created db camera_id ("Camera " ++ camera_id)
                   (User.id current_user) None Hcam) eq_refl Hjson)
      as (zone & response & db' & Hpost).
    eexists zone, response, db', _.
    by destruct Hpost as (? & ? & ? & ? & ? & ? & ?).
Qed.

(** X17: a well-formed creation request on a camera of the caller, or on
    a camera that does not exist yet, is answered 201 with the data of
    the request and a fresh identifier, and the list of the zones of the
    camera then ends with this zone, when the stored coordinates decode
    to the coordinates of the request. *)
Theorem post_zone_then_get_zones db camera_id body current_user listed :
  ZoneCreate.validate body = true →
  (∀ camera, crud.get_camera db camera_id = Some camera →
             Camera.user_id camera = User.id current_user) →
  json_loads (json_dumps (ZoneCreate.coordinates body)) ≫= validate_coordinates
  = Return (ZoneCreate.coordinates body) →
  mapM zones.zone_response (crud.get_camera_zones db camera_id false) = Return listed →
  ∃ response db',
    zones.post_zone db camera_id body current_user = (Respond 201 response, db')
    ∧ (ZoneResponse.id response ∉ (Zone.id <$> Session.zones db))
    ∧ ZoneResponse.camera_id response = camera_id
    ∧ ZoneResponse.name response = ZoneCreate.name body
    ∧ ZoneResponse.coordinates response = ZoneCreate.coordinates body
    ∧ ZoneResponse.alert_type response = ZoneCreate.alert_type body
    ∧ ZoneResponse.active response = ZoneCreate.active body
    ∧ ZoneResponse.active_hours response = ZoneCreate.active_hours body
    ∧ zones.get_zones db' camera_id current_user
      = (Respond 200 (listed ++ [response]), db').
Proof.
  intros Hvalid Howner Hjson Hlisted.
  destruct (post_zone_accepted db camera_id body current_user Hvalid Howner Hjson)
    as (zone & response & db' & camera & Hpost & Hresponse & Hzone & Hfresh & _
        & Hzones & Hcam & Howned).
  exists response, db'. split; [done|].
  assert (Hfields : response
            = ZoneResponse.mk (ZoneResponse.id response) camera_id (ZoneCreate.name body)
                (ZoneCreate.coordinates body) (ZoneCreate.alert_type body)
                (ZoneCreate.active body) (ZoneCreate.active_hours body)
                (ZoneResponse.created_at response)).
  { pose proof Hresponse as Hr. unfold zones.zone_response in Hr.
    rewrite Hzone in Hr. cbn [Zone.coordinates_json] in Hr. rewrite Hjson in Hr.
    by injection Hr as <-. }
  split; [by rewrite Hzone in Hfresh|].
  do 6 (split; [by rewrite Hfields|]).
  unfold zones.get_zones.
  rewrite Hcam, bool_decide_false by (by rewrite Howned; intros []). cbn [negb].
  by rewrite Hzones, (mapM_snoc _ _ _ _ _ Hlisted Hresponse).
Qed.

(** X18: on a camera that belongs to another user the zone endpoints
    answer 403 and leave the session as it is: no zone is created,
    listed or deleted. *)
Theorem zone_endpoints_refuse_foreign_camera db camera_id camera current_user :
  crud.get_camera db camera_id = Some camera →
  Camera.user_id camera ≠ User.id current_user →
  (∀ body, ∃ e, zones.create_zone db camera_id body current_user = (Reject e, db)
                ∧ HTTPException.status_code e = 403)
  ∧ (∀ body, ZoneCreate.validate body = true →
             ∃ e, zones.post_zone db camera_id body current_user = (Reject e, db)
                  ∧ HTTPException.status_code e = 403)
  ∧ (∃ e, zones.get_zones db camera_id current_user = (Reject e, db)
          ∧ HTTPException.status_code e = 403)
  ∧ (∀ zone_id zone, crud.get_zone db zone_id = Some zone →
                     Zone.camera_id zone = camera_id →
                     ∃ e, zones.delete_zone db camera_id zone_id current_user = (Reject e, db)
                          ∧ HTTPException.status_code e = 403).
Proof.
  intros Hcam Hforeign.
  assert (Hcreate : ∀ body, ∃ e,
            zones.create_zone db camera_id body current_user = (Reject e, db)
            ∧ HTTPException.status_code e = 403).
  { intros body. unfold zones.create_zone. rewrite Hcam, bool_decide_true by done.
    by eexists. }
  split; [done|]. split; [|split].
  - intros body Hvalid. unfold zones.post_zone. rewrite Hvalid. apply Hcreate.
  - unfold zones.get_zones. rewrite Hcam, bool_decide_true by done. by eexists.
  - intros zone_id zone Hzone Hzcam. unfold zones.delete_zone.
    rewrite Hzone, bool_decide_false by (by intros []).
    rewrite Hzcam, Hcam, bool_decide_true by done. by eexists.
Qed.

(** X19: the deletion endpoint answers 204 only for a stored zone of the
    given camera when the camera belongs to the caller, and the session
    is then the one [crud.delete_zone] leaves; otherwise it answers 404,
    400 or 403 and leaves the session as it is. *)
Theorem delete_zone_endpoint db camera_id zone_id current_user :
  match zones.delete_zone db camera_id zone_id current_user with
  | (Respond code _, db') =>
      code = 204
      ∧ db' = (crud.delete_zone db zone_id).2
      ∧ ∃ zone camera,
          crud.get_zone db zone_id = Some zone
          ∧ Zone.camera_id zone = camera_id
          ∧ crud.get_camera db camera_id = Some camera
          ∧ Camera.user_id camera = User.id current_user
  | (Reject e, db') =>
      db' = db
      ∧ (HTTPException.status_code e = 404 ∧ crud.get_zone db zone_id = None
         ∨ HTTPException.status_code e = 400
           ∧ (∃ zone, crud.get_zone db zone_id = Some zone ∧ Zone.camera_id zone ≠ camera_id)
         ∨ HTTPException.status_code e = 403)
  end.
Proof.
  unfold zones.delete_zone.
  destruct (crud.get_zone db zone_id) as [zone|] eqn:Hzone; [|by split; [|left]].
  case_bool_decide as Hzcam.
  { split; [done|]. right. left. split; [done|]. by exists zone. }
  rewrite Hzcam.
  destruct (crud.get_camera db camera_id) as [camera|] eqn:Hcam; [|by split; [|right; right]].
  case_bool_decide as Hown; [by split; [|right; right]|].
  destruct (crud.delete_zone db zone_id) as [deleted db'] eqn:Hdelete.
  split; [done|]. split; [done|]. by exists zone, camera.
Qed.

(** The zones that [create_zone] stores have coordinates in the sense of
    [stored_coordinates], for a [json] that decodes what it encodes. *)
Lemma created_zone_stored_coordinates db camera_id name coordinates alert_type active
    active_hours :
  json_loads (json_dumps coordinates) = Return (decoded_coordinates coordinates) →
  stored_coordinates (crud.create_zone db camera_id name coordinates alert_type active
                        active_hours).1.
Proof.
  intros Hjson. unfold stored_coordinates.
  cbn [crud.create_zone fst Zone.coordinates_json]. rewrite Hjson.
  unfold decoded_coordinates. clear Hjson.
  induction coordinates as [|row rows IH]; [done|].
  rewrite fmap_cons. cbn [forallb]. rewrite IH, andb_true_r.
  cbn [is_row_of_numbers]. clear. induction row as [|x row IH]; [done|].
  rewrite fmap_cons. cbn [forallb number_value]. rewrite IH, andb_true_r.
  by apply bool_decide_eq_true.
Qed.

(** X20: the coordinates that [create_zone] stores are read back by the
    evaluator as the points of the request when each row has two
    numbers, for a [json] that decodes what it encodes. *)
Theorem stored_coordinates_round_trip db camera_id name coordinates alert_type active
    active_hours :
  json_loads (json_dumps coordinates) = Return (decoded_coordinates coordinates) →
  Forall (λ row, length row = 2%nat) coordinates →
  let zone := (crud.create_zone db camera_id name coordinates alert_type active
                 active_hours).1 in
  parse_zone_coordinates (Zone.coordinates_json zone)
  = (Return (point_of_row <$> coordinates), []).
Proof.
  intros Hjson Hrows zone. subst zone. cbn [crud.create_zone fst Zone.coordinates_json].
  apply parse_zone_coordinates_Return. rewrite Hjson. cbn.
  apply mapM_Return. clear Hjson.
  induction Hrows as [|row rows Hrow _ IH]; [constructor|].
  rewrite !fmap_cons. constructor; [|exact IH].
  destruct row as [|x [|y [|? ?]]]; try discriminate Hrow. done.
Qed.

Lemma ill_shaped_zone_skipped zone coordinates dets :
  Zone.coordinates_json zone = json_dumps coordinates →
  json_loads (json_dumps coordinates) = Return (decoded_coordinates coordinates) →
  Exists (λ row, length row ≠ 2%nat) coordinates →
  result (parse_zone_coordinates (Zone.coordinates_json zone)) = Return []
  ∧ result (check_zones dets [zone]) = Return []
  ∧ (Zone.active zone = true →
     Warning_invalid_coordinates (Zone.id zone) ∈ logged (check_zones dets [zone])).
Proof.
  intros Hstored Hjson Hrows.
  assert (Hparse : ∃ e, parse_zone_coordinates (Zone.coordinates_json zone)
                        = (Return [], [Error_parse_coordinates e])).
  { rewrite Hstored.
    destruct (mapM_Raise coordinate_pair
                ((λ row, PyList (PyFloat <$> row)) <$> coordinates)) as [e He].
    - apply Exists_fmap. eapply Exists_impl; [exact Hrows|].
      intros row Hrow. cbn. unfold coordinate_pair, py_unpack2. cbn.
      destruct row as [|x [|y [|? ?]]];
        [by eexists|by eexists|by destruct Hrow|by eexists].
    - exists e. apply parse_zone_coordinates_Raise. rewrite Hjson. cbn. exact He. }
  destruct Hparse as [e Hparse]. split; [by rewrite Hparse|].
  unfold check_zones. cbn [for_each]. unfold check_zone.
  destruct (Zone.active zone); cbn [negb].
  - rewrite Hparse, eff_bind_return. cbn. split; [done|]. intros _.
    rewrite !elem_of_cons. auto.
  - cbn. split; [done|]. intros [=].
Qed.

(** X21: the creation endpoint accepts a request in which a row does not
    have exactly two numbers, and the zone it stores parses to no point:
    whatever the detections, the evaluator raises no alert for it and,
    when the zone is active, reports invalid coordinates. *)
Theorem ill_shaped_zone_never_alerts db camera_id body current_user dets :
  ZoneCreate.validate body = true →
  (∀ camera, crud.get_camera db camera_id = Some camera →
             Camera.user_id camera = User.id current_user) →
  json_loads (json_dumps (ZoneCreate.coordinates body)) ≫= validate_coordinates
  = Return (ZoneCreate.coordinates body) →
  json_loads (json_dumps (ZoneCreate.coordinates body))
  = Return (decoded_coordinates (ZoneCreate.coordinates body)) →
  Exists (λ row, length row ≠ 2%nat) (ZoneCreate.coordinates body) →
  ∃ response db' zone,
    zones.post_zone db camera_id body current_user = (Respond 201 response, db')
    ∧ crud.get_zone db' (ZoneResponse.id response) = Some zone
    ∧ Zone.active zone = ZoneCreate.active body
    ∧ result (parse_zone_coordinates (Zone.coordinates_json zone)) = Return []
    ∧ result (check_zones dets [zone]) = Return []
    ∧ (ZoneCreate.active body = true →
       Warning_invalid_coordinates (ZoneResponse.id response)
       ∈ logged (check_zones dets [zone])).
Proof.
  intros Hvalid Howner Hjson Hdecoded Hrows.
  destruct (post_zone_accepted db camera_id body current_user Hvalid Howner Hjson)
    as (zone & response & db' & camera & Hpost & _ & Hzone & _ & Hget & _).
  assert (Hid : Zone.id zone = ZoneResponse.id response) by (by rewrite Hzone).
  assert (Hactive : Zone.active zone = ZoneCreate.active body) by (by rewrite Hzone).
  assert (Hstored : Zone.coordinates_json zone = json_dumps (ZoneCreate.coordinates body))
    by (by rewrite Hzone).
  destruct (ill_shaped_zone_skipped zone _ dets Hstored Hdecoded Hrows)
    as (Hparse & Halerts & Hlog).
  exists response, db', zone. rewrite <- Hid, <- Hactive. by repeat (split; [done|]).
Qed.

End zone_endpoint_properties.

(** ** The detection endpoint and the owner of the camera *)

Lemma get_camera_touched db camera_id camera :
  crud.get_camera db camera_id = Some camera →
  crud.get_camera (crud.update_camera_last_frame db camera_id) camera_id
  = Some (Camera.mk (Camera.id camera) (Camera.name camera) (Camera.user_id camera)
            (Camera.location camera) (Camera.active camera) (Camera.created_at camera)
            (Some (Session.utcnow db))).
Proof.
  intros Hcam. unfold crud.update_camera_last_frame. rewrite Hcam.
  unfold crud.get_camera in *. cbn [Session.cameras].
  induction (Session.cameras db) as [|c cameras IH]; [done|].
  rewrite fmap_cons, filter_cons. rewrite filter_cons in Hcam.
  destruct (decide (Camera.id c = camera_id)) as [Hid|Hid].
  - injection Hcam as ->. rewrite bool_decide_true by done.
    cbn [Camera.id]. by rewrite decide_True.
  - case_bool_decide; cbn [Camera.id]; rewrite decide_False by done; by apply IH.
Qed.

Section detect_owner_properties.
Context `{Runtime} {Image : Type}.

(** X22: the detection endpoint does not compare the owner of a stored
    camera with the caller: a caller with room for one more camera who
    posts a frame under the identifier of a camera of another user is
    answered 200 with the alerts of the zones of that camera, and the
    camera is stamped with the time of the frame. *)
Theorem detect_endpoint_foreign_camera (yolo : YOLODetectionService Image) db pil_image
    camera_id camera current_user :
  crud.get_camera db camera_id = Some camera →
  Camera.user_id camera ≠ User.id current_user →
  Z.of_nat (length (crud.get_user_cameras db (User.id current_user)))
  < User.cameras_allowed current_user →
  ∃ body db',
    result (detect.detect_objects yolo db (Return pil_image) camera_id current_user)
    = Return (Respond 200 body, db')
    ∧ DetectionResponse.alerts body
      = expected_alerts (DetectionResponse.detections body)
          (crud.get_camera_zones db camera_id true)
    ∧ (∃ rows, Session.alerts db' = Session.alerts db ++ rows
               ∧ Forall2 (stored_as camera_id) rows (DetectionResponse.alerts body))
    ∧ crud.get_camera db' camera_id
      = Some (Camera.mk (Camera.id camera) (Camera.name camera) (Camera.user_id camera)
                (Camera.location camera) (Camera.active camera) (Camera.created_at camera)
                (Some (Session.utcnow db))).
Proof.
  intros Hcam Hforeign Hroom.
  destruct (detect_endpoint_cases yolo db (Return pil_image) camera_id current_user)
    as (response & db' & l & Heq & _ & _ & _ & Hcameras & Hresponse).
  assert (Hallowed : (auth_service.check_camera_limit db current_user camera_id).1 = true).
  { unfold auth_service.check_camera_limit. case_bool_decide; [done|].
    rewrite bool_decide_false by lia. done. }
  rewrite Heq. cbn [result fst].
  destruct response as [code body|e].
  - destruct Hresponse as (-> & _ & _ & _ & Halerts & Hrows).
    exists body, db'. split; [done|]. split; [done|]. split; [done|].
    specialize (Hcameras Hallowed). rewrite Hcam in Hcameras.
    rewrite <- (get_camera_touched db camera_id camera Hcam).
    unfold crud.get_camera. by rewrite Hcameras.
  - exfalso. destruct Hresponse as [(_ & Hrefused & _)|(_ & [exn Hexn] & _)]; [|done].
    by rewrite Hallowed in Hrefused.
Qed.

End detect_owner_properties.


(** ** Concrete runs

    The tests of the repository, the scenarios of the specification and
    instances of the theorems, run with the reference runtime on the
    inputs of [Scenario]. *)

Example test_parse_zone_coordinates :
  parse_zone_coordinates (H := Reference.runtime)
    "[[100, 200], [300, 200], [300, 400], [100, 400]]"
  = (Return [(100, 200); (300, 200); (300, 400); (100, 400)]%Q, []).
Proof. vm_compute. reflexivity. Qed.

Example test_parse_invalid_coordinates :
  result (parse_zone_coordinates (H := Reference.runtime) "invalid json") = Return [].
Proof. vm_compute. reflexivity. Qed.

Example test_get_bbox_center :
  let center := get_bbox_center (BoundingBox.mk 100 200 300 400) in
  (center.1 == 200 ∧ center.2 == 300)%Q.
Proof. split; reflexivity. Qed.

Example test_point_in_polygon :
  let polygon := [(0, 0); (100, 0); (100, 100); (0, 100)]%Q in
  is_point_in_polygon (H := Reference.runtime) (50, 50)%Q polygon = (Return true, [])
  ∧ is_point_in_polygon (H := Reference.runtime) (150, 150)%Q polygon = (Return false, [])
  ∧ is_point_in_polygon (H := Reference.runtime) (50, 50)%Q [(0, 0); (100, 0)]%Q
    = (Return false, [Warning_polygon_points]).
Proof. vm_compute. repeat split; reflexivity. Qed.

Example scenario_A :
  result (check [inside] [zone 1 square true])
  = Return [ZoneAlert.mk 1 "zone-1" "intrusion" (9 # 10)].
Proof. vm_compute. reflexivity. Qed.

Example scenario_B : result (check [outside] [zone 1 square true]) = Return [].
Proof. vm_compute. reflexivity. Qed.

Example scenario_C : check [inside] [zone 1 square false] = (Return [], []).
Proof. vm_compute. reflexivity. Qed.

Example scenario_D :
  result (detect_objects {| model := Some (λ _ : unit,
                                       Return [Results.mk [Box.mk 0 (25 # 100) (40, 40, 60, 80)%Q]]);
                            model_loaded := true |} tt)
  = Return [].
Proof. vm_compute. reflexivity. Qed.

Example scenario_E :
  result (check [inside] [zone 1 square true; zone 2 "[[30,30],[70,30],[50,90]]" true])
  = Return [ZoneAlert.mk 1 "zone-1" "intrusion" (9 # 10);
            ZoneAlert.mk 2 "zone-2" "intrusion" (9 # 10)].
Proof. vm_compute. reflexivity. Qed.

Example zone_then_detection_order :
  result (check [person (9 # 10) 40 40 60 60; person (5 # 10) 10 10 30 50]
                [zone 1 square true; zone 2 square true])
  = Return [ZoneAlert.mk 1 "zone-1" "intrusion" (9 # 10);
            ZoneAlert.mk 1 "zone-1" "intrusion" (5 # 10);
            ZoneAlert.mk 2 "zone-2" "intrusion" (9 # 10);
            ZoneAlert.mk 2 "zone-2" "intrusion" (5 # 10)].
Proof. vm_compute. reflexivity. Qed.

Example boundaries_of_the_filter :
  result (detect_objects yolo tt)
  = Return [person (3 # 10) 0 0 20 40; person (9 # 10) 10 10 30 50].
Proof. vm_compute. reflexivity. Qed.

Lemma inside_valid : Forall Detection.valid [inside].
Proof. repeat constructor; unfold Qle; simpl; lia. Defined.


Lemma degenerate_polygon_contains_nothing_witness :
  (length [(0, 0); (100, 0)]%Q < 3)%nat
  ∧ is_point_in_polygon (H := Reference.runtime) (50, 50)%Q [(0, 0); (100, 0)]%Q
    = (Return false, [Warning_polygon_points])
  ∧ Demo.point_in_polygon (50, 50)%Q [(0, 0); (100, 0)]%Q = Return false.
Proof.
  split; [simpl; lia|].
  apply (degenerate_polygon_contains_nothing (H := Reference.runtime)). simpl; lia.
Defined.

(** C5, as stated, fails: an inactive zone with unparsable coordinates,
    and an active zone with two points in a frame without detections,
    are skipped without any report. *)
Lemma invalid_zone_not_reported :
  polygon_of (H := Reference.runtime) "not json" = []
  ∧ check [inside] [zone 1 "not json" false] = (Return [], [])
  ∧ length (polygon_of (H := Reference.runtime) "[[0,0],[100,0]]") = 2%nat
  ∧ check [] [zone 2 "[[0,0],[100,0]]" true] = (Return [], []).
Proof. vm_compute. repeat split; reflexivity. Qed.

Lemma invalid_zone_is_skipped_witness :
  Forall Detection.valid [inside]
  ∧ (length (polygon_of (H := Reference.runtime)
               (Zone.coordinates_json (zone 2 "not json" true))) < 3)%nat
  ∧ result (check [inside] ([zone 1 square true] ++ zone 2 "not json" true :: [zone 3 square true]))
    = Return (expected_alerts (H := Reference.runtime) [inside]
                ([zone 1 square true] ++ [zone 3 square true]))
  ∧ result (check [inside] ([zone 1 square true] ++ [zone 3 square true]))
    = Return (expected_alerts (H := Reference.runtime) [inside]
                ([zone 1 square true] ++ [zone 3 square true]))
  ∧ logged (check [inside] ([zone 1 square true] ++ zone 2 "not json" true :: [zone 3 square true]))
    = ([zone 1 square true] ≫= zone_log (H := Reference.runtime) [inside])
      ++ invalid_zone_report (H := Reference.runtime) [inside] (zone 2 "not json" true)
      ++ ([zone 3 square true] ≫= zone_log (H := Reference.runtime) [inside]).
Proof.
  assert (Hlen : (length (polygon_of (H := Reference.runtime)
                            (Zone.coordinates_json (zone 2 "not json" true))) < 3)%nat).
  { vm_compute. lia. }
  split; [exact inside_valid|]. split; [exact Hlen|].
  exact (invalid_zone_is_skipped (H := Reference.runtime) [inside]
           [zone 1 square true] (zone 2 "not json" true) [zone 3 square true]
           inside_valid Hlen).
Defined.

Example invalid_zone_report_unparsable :
  invalid_zone_report (H := Reference.runtime) [inside] (zone 2 "not json" true)
  = [Error_parse_coordinates JSONDecodeError; Warning_invalid_coordinates 2].
Proof. vm_compute. reflexivity. Qed.

Lemma inactive_zone_yields_no_alert_witness :
  Zone.active (zone 3 square false) = false
  ∧ (∀ acc, check_zone (H := Reference.runtime) [inside] acc (zone 3 square false)
            = (Return acc, []))
  ∧ result (check [inside] ([zone 1 square true] ++ zone 3 square false :: []))
    = result (check [inside] ([zone 1 square true] ++ []))
  ∧ (∃ alerts, result (check [inside] [zone 1 square true; zone 3 square false])
               = Return alerts
               ∧ ∀ a, a ∈ alerts → ZoneAlert.zone_id a ≠ 3)
  ∧ zone 3 square false ∉ crud.get_camera_zones db "cam-1" true.
Proof.
  pose proof (inactive_zone_yields_no_alert (H := Reference.runtime) [inside]
                (zone 3 square false) eq_refl) as (Hbody & Hbatch & Hids & Hdb).
  split; [reflexivity|]. split; [exact Hbody|]. split; [apply Hbatch|].
  split; [|apply Hdb].
  apply Hids; [exact inside_valid|].
  intros z' Hz' Hid. rewrite !elem_of_cons in Hz'.
  destruct Hz' as [->|[->|Hz']]; [discriminate Hid|reflexivity|].
  by apply elem_of_nil in Hz'.
Defined.

Lemma short_polygon_zone_witness :
  Zone.active (zone 2 "[[0,0],[100,0]]" true) = true
  ∧ parse_zone_coordinates (H := Reference.runtime)
      (Zone.coordinates_json (zone 2 "[[0,0],[100,0]]" true))
    = (Return [(0, 0); (100, 0)]%Q, [])
  ∧ (1 ≤ length [(0, 0); (100, 0)]%Q ≤ 2)%nat
  ∧ (∀ acc, check_zone (H := Reference.runtime) [inside; outside] acc
              (zone 2 "[[0,0],[100,0]]" true)
            = (Return acc, repeat Warning_polygon_points (length [inside; outside])))
  ∧ result (check [inside; outside] [zone 2 "[[0,0],[100,0]]" true]) = Return []
  ∧ Warning_invalid_coordinates (Zone.id (zone 2 "[[0,0],[100,0]]" true))
    ∉ logged (check [inside; outside] [zone 2 "[[0,0],[100,0]]" true]).
Proof.
  assert (Hparse : parse_zone_coordinates (H := Reference.runtime)
                     (Zone.coordinates_json (zone 2 "[[0,0],[100,0]]" true))
                   = (Return [(0, 0); (100, 0)]%Q, [])).
  { vm_compute. reflexivity. }
  assert (Hlen : (1 ≤ length [(0, 0); (100, 0)]%Q ≤ 2)%nat) by (simpl; lia).
  split; [reflexivity|]. split; [exact Hparse|]. split; [exact Hlen|].
  exact (short_polygon_zone (H := Reference.runtime) [inside; outside]
           (zone 2 "[[0,0],[100,0]]" true) _ eq_refl Hparse Hlen).
Defined.


Example parse_accepts_other_items :
  result (parse_zone_coordinates (H := Reference.runtime) "[[true,false]]")
  = Return [(1, 0)%Q]
  ∧ result (parse_zone_coordinates (H := Reference.runtime)
              ("[" ++ quote ++ "12" ++ quote ++ "]"))
    = Return [(1, 2)%Q].
Proof. vm_compute. split; reflexivity. Qed.


(** C2, as stated, fails: the zone [night_zone] has an active-hours
    window; the registry read returns it and the engine raises an alert
    for it, while the registry of the specification returns no zone at
    any time outside the window, however windows are read. *)
Lemma active_hours_not_enforced :
  crud.get_camera_zones (Session.mk [] [] [night_zone] [] 0) "cam-1" true = [night_zone]
  ∧ result (check [inside]
              (crud.get_camera_zones (Session.mk [] [] [night_zone] [] 0) "cam-1" true))
    = Return [ZoneAlert.mk 1 "night" "intrusion" (9 # 10)]
  ∧ ∀ in_window at_time,
      in_window "22:00-06:00" at_time = false →
      active_zones_for_camera in_window (Session.mk [] [] [night_zone] [] 0) "cam-1" at_time
      = [].
Proof.
  split; [by vm_compute|]. split; [by vm_compute|].
  intros in_window at_time Hout. unfold active_zones_for_camera. cbn [Session.zones].
  rewrite filter_cons, decide_False; [done|].
  unfold in_active_hours. cbn. rewrite Hout. by intros (_ & _ & ?).
Qed.

Example zone_violations_run :
  let '(alerts, db') :=
    match result (detect.zone_violations (H := Reference.runtime) db "cam-1" [inside]) with
    | Return r => r
    | Raise _ => ([], db)
    end in
  alerts = [ZoneAlert.mk 1 "night" "intrusion" (9 # 10);
            ZoneAlert.mk 2 "zone-2" "intrusion" (9 # 10)]
  ∧ (λ a, (Alert.id a, Alert.zone_id a)) <$> Session.alerts db'
    = [(1, 1); (2, 2); (3, 1); (4, 1); (5, 2)].
Proof. vm_compute. split; reflexivity. Qed.

Example get_camera_zones_active_run :
  crud.get_camera_zones db "cam-1" true = [night_zone; zone 2 square true]
  ∧ crud.get_camera_zones db "cam-1" false
    = [night_zone; zone 2 square true; zone 3 square false]
  ∧ crud.get_camera_zones db "cam-2" true = [].
Proof. vm_compute. repeat split; reflexivity. Qed.

Lemma delete_zone_cascades_witness :
  night_zone ∈ Session.zones db
  ∧ NoDup (Alert.id <$> Session.alerts db)
  ∧ let '(deleted, db') := crud.delete_zone db (Zone.id night_zone) in
    deleted = true
    ∧ (∀ a, a ∈ Session.alerts db' → Alert.zone_id a ≠ Zone.id night_zone)
    ∧ Session.alerts db'
      = filter (λ a, Alert.zone_id a ≠ Zone.id night_zone) (Session.alerts db)
    ∧ crud.get_zone db' (Zone.id night_zone) = None.
Proof.
  assert (Hin : night_zone ∈ Session.zones db) by (by left).
  assert (Hids : NoDup (Alert.id <$> Session.alerts db)).
  { cbn. repeat (apply NoDup_cons; split; [rewrite ?elem_of_cons, elem_of_nil; lia|]).
    apply NoDup_nil_2. }
  split; [exact Hin|]. split; [exact Hids|].
  exact (delete_zone_cascades db night_zone Hin Hids).
Defined.

Example delete_zone_run :
  Session.alerts (crud.delete_zone db 1).2
  = [Alert.mk 2 "cam-1" 2 "person" (8 # 10) None None None 0]
  ∧ Zone.id <$> Session.zones (crud.delete_zone db 1).2 = [2; 3]
  ∧ crud.delete_zone db 7 = (false, db).
Proof. vm_compute. repeat split; reflexivity. Qed.

Lemma short_zone_request_rejected_witness :
  let body := ZoneCreate.mk "gate" [[0; 0]; [100; 0]]%Q "intrusion" true None in
  (length (ZoneCreate.coordinates body) < 3)%nat
  ∧ zones.post_zone (H := Reference.runtime) db "cam-1" body user
    = (Reject (HTTPException.mk 422 "Unprocessable Entity"), db)
  ∧ ∃ e db', zones.create_zone (H := Reference.runtime) db "cam-1" body user = (Reject e, db')
             ∧ (HTTPException.status_code e = 400 ∨ HTTPException.status_code e = 403)
             ∧ Session.zones db' = Session.zones db.
Proof.
  intros body. split; [simpl; lia|].
  apply (short_zone_request_rejected (H := Reference.runtime) db "cam-1" body user).
  simpl; lia.
Defined.

Example create_zone_run :
  let body := ZoneCreate.mk "gate" [[0; 0]; [100; 0]; [100; 100]]%Q "intrusion" true None in
  let '(response, db') := zones.post_zone (H := Reference.runtime) db "cam-1" body user in
  response = Respond 201 (ZoneResponse.mk 4 "cam-1" "gate" [[0; 0]; [100; 0]; [100; 100]]%Q
                            "intrusion" true None 0)
  ∧ Zone.coordinates_json <$> last (Session.zones db')
    = Some "[[0.0, 0.0], [100.0, 0.0], [100.0, 100.0]]".
Proof. vm_compute. split; reflexivity. Qed.

Lemma detect_objects_filter_witness :
  model_loaded yolo = true
  ∧ model yolo = Some (λ _, Return [Results.mk boxes])
  ∧ Forall (λ box, (0 <= Box.conf box)%Q ∧ (Box.conf box <= 1)%Q)
           (concat (Results.boxes <$> [Results.mk boxes]))
  ∧ result (detect_objects yolo tt)
    = Return (filtered_detections (concat (Results.boxes <$> [Results.mk boxes]))).
Proof.
  assert (Hboxes : Forall (λ box, (0 <= Box.conf box)%Q ∧ (Box.conf box <= 1)%Q)
                          (concat (Results.boxes <$> [Results.mk boxes]))).
  { cbn. repeat constructor; unfold Qle; simpl; lia. }
  split; [reflexivity|]. split; [reflexivity|]. split; [exact Hboxes|].
  exact (detect_objects_filter yolo tt _ [Results.mk boxes] eq_refl eq_refl eq_refl Hboxes).
Defined.

Example filtered_detections_boundaries :
  filtered_detections boxes = [person (3 # 10) 0 0 20 40; person (9 # 10) 10 10 30 50].
Proof. vm_compute. reflexivity. Qed.

(** ** The properties above on the deployment *)

Lemma point_in_polygon_outside_box_witness :
  (Forall (λ p, (p.1 < 150)%Q) Site.rectangle
   ∨ Forall (λ p, (p.2 < 50)%Q) Site.rectangle
   ∨ Forall (λ p, (50 <= p.2)%Q) Site.rectangle)
  ∧ Demo.point_in_polygon (150, 50)%Q Site.rectangle = Return false.
Proof.
  assert (Hright : Forall (λ p, (p.1 < 150)%Q) Site.rectangle)
    by (repeat constructor; unfold Qlt; simpl; lia).
  split; [by left|].
  apply (point_in_polygon_outside_box 150 50 Site.rectangle). by left.
Defined.

Lemma point_in_rectangle_witness :
  (0 < 100)%Q
  ∧ Demo.point_in_polygon (50, 50)%Q Site.rectangle
    = Return (py_lt 0 50 && py_le 50 100 && py_lt 0 50 && py_le 50 100).
Proof.
  assert (Hside : (0 < 100)%Q) by (unfold Qlt; simpl; lia).
  split; [exact Hside|].
  exact (point_in_rectangle 0 0 100 100 50 50 Hside Hside).
Defined.

Lemma detect_objects_counts_witness :
  model_loaded Site.yolo = true
  ∧ Forall (λ box, (0 <= Box.conf box)%Q ∧ (Box.conf box <= 1)%Q) boxes
  ∧ logged (detect_objects Site.yolo tt)
    = (boxes ≫= rejection)
      ++ [Info_detected (length (filtered_detections boxes)) (length (person_boxes boxes))
            (length (filter low_confidence boxes)) (length (filter too_small boxes))]
  ∧ (length (filtered_detections boxes) + length (filter low_confidence boxes)
     + length (filter too_small boxes) = length (person_boxes boxes))%nat
  ∧ length (boxes ≫= rejection)
    = (length (filter low_confidence boxes) + length (filter too_small boxes))%nat
  ∧ logged (detect_objects Site.yolo tt)
    = [Debug_rejected_low_confidence (29 # 100); Debug_rejected_too_small (19 - 0) (40 - 0);
       Info_detected 2 4 1 1].
Proof.
  assert (Hconf : Forall (λ box, (0 <= Box.conf box)%Q ∧ (Box.conf box <= 1)%Q)
                    (concat (Results.boxes <$> [Results.mk boxes])))
    by (repeat constructor; unfold Qle; simpl; lia).
  split; [reflexivity|]. split; [exact Hconf|].
  pose proof (detect_objects_counts Site.yolo tt (Site.run boxes) [Results.mk boxes]
                eq_refl eq_refl eq_refl Hconf) as Hcounts.
  cbn [fmap list_fmap Results.boxes concat] in Hcounts. rewrite app_nil_r in Hcounts.
  destruct Hcounts as (Hlog & Hsum & Hlen).
  split; [exact Hlog|]. split; [exact Hsum|]. split; [exact Hlen|].
  vm_compute. reflexivity.
Defined.

Lemma detect_objects_out_of_range_witness :
  Box.mk 0 (11 # 10) (0, 0, 50, 50)%Q ∈ Site.hot_boxes
  ∧ (1 < 11 # 10)%Q
  ∧ ∃ l, detect_objects Site.hot tt
         = (Return [], l ++ [Error_during_detection ValidationError]).
Proof.
  assert (Hin : Box.mk 0 (11 # 10) (0, 0, 50, 50)%Q
                ∈ concat (Results.boxes <$> [Results.mk Site.hot_boxes]))
    by (right; left).
  assert (Hconf : (1 < 11 # 10)%Q) by (unfold Qlt; simpl; lia).
  split; [right; left|]. split; [exact Hconf|].
  apply (detect_objects_out_of_range Site.hot tt (Site.run Site.hot_boxes)
           [Results.mk Site.hot_boxes] (Box.mk 0 (11 # 10) (0, 0, 50, 50)%Q)
           eq_refl eq_refl eq_refl Hin eq_refl Hconf).
  split; unfold Qle; simpl; lia.
Defined.

Lemma create_zone_lookup_witness :
  let '(zone, db') :=
    crud.create_zone (H := Reference.runtime) Site.db "cam-1" "gate"
      (ZoneCreate.coordinates Site.gate) "intrusion" true None in
  (Zone.id zone ∉ (Zone.id <$> Session.zones Site.db))
  ∧ crud.get_zone db' (Zone.id zone) = Some zone
  ∧ (∀ i, i ≠ Zone.id zone → crud.get_zone db' i = crud.get_zone Site.db i)
  ∧ crud.get_camera_zones db' "cam-1" false
    = crud.get_camera_zones Site.db "cam-1" false ++ [zone]
  ∧ (NoDup (Zone.id <$> Session.zones Site.db) → NoDup (Zone.id <$> Session.zones db')).
Proof.
  exact (create_zone_lookup (H := Reference.runtime) Site.db "cam-1" "gate"
           (ZoneCreate.coordinates Site.gate) "intrusion" true None).
Defined.

Lemma create_then_delete_zone_witness :
  (∀ a, a ∈ Session.alerts db → Alert.zone_id a ∈ (Zone.id <$> Session.zones db))
  ∧ let '(zone, db') :=
      crud.create_zone (H := Reference.runtime) db "cam-1" "gate"
        (ZoneCreate.coordinates Site.gate) "intrusion" true None in
    crud.delete_zone db' (Zone.id zone) = (true, db).
Proof.
  assert (Hrefs : ∀ a, a ∈ Session.alerts db
                       → Alert.zone_id a ∈ (Zone.id <$> Session.zones db)).
  { intros a Ha. cbn in Ha. rewrite !elem_of_cons, elem_of_nil in Ha.
    destruct Ha as [->|[->|[->|[]]]]; cbn; rewrite !elem_of_cons; auto. }
  split; [exact Hrefs|].
  exact (create_then_delete_zone (H := Reference.runtime) db "cam-1" "gate"
           (ZoneCreate.coordinates Site.gate) "intrusion" true None Hrefs).
Defined.

Lemma delete_zone_frame_witness :
  let db' := (crud.delete_zone db 1).2 in
  Session.users db' = Session.users db
  ∧ Session.cameras db' = Session.cameras db
  ∧ Session.zones db' = filter (λ z, Zone.id z ≠ 1) (Session.zones db)
  ∧ (∀ i, i ≠ 1 → crud.get_zone db' i = crud.get_zone db i)
  ∧ crud.delete_zone db' 1 = (false, db').
Proof. exact (delete_zone_frame db 1). Defined.

Lemma check_zones_app_witness :
  Forall Detection.valid [inside]
  ∧ ∃ alerts1 alerts2,
      result (check [inside] [zone 1 square true]) = Return alerts1
      ∧ result (check [inside] [zone 2 square true]) = Return alerts2
      ∧ result (check [inside] ([zone 1 square true] ++ [zone 2 square true]))
        = Return (alerts1 ++ alerts2).
Proof.
  split; [exact inside_valid|].
  exact (check_zones_app (H := Reference.runtime) [inside] [zone 1 square true]
           [zone 2 square true] inside_valid).
Defined.

Lemma zone_violations_stores_witness :
  Forall Detection.valid [inside]
  ∧ ∃ alerts db' rows,
      result (detect.zone_violations (H := Reference.runtime) Site.db "cam-1" [inside])
      = Return (alerts, db')
      ∧ alerts = expected_alerts (H := Reference.runtime) [inside]
                   (crud.get_camera_zones Site.db "cam-1" true)
      ∧ Session.alerts db' = Session.alerts Site.db ++ rows
      ∧ Forall2 (stored_as "cam-1") rows alerts
      ∧ Session.users db' = Session.users Site.db
      ∧ Session.cameras db' = Session.cameras Site.db
      ∧ Session.zones db' = Session.zones Site.db
      ∧ (NoDup (Alert.id <$> Session.alerts Site.db)
         → NoDup (Alert.id <$> Session.alerts db')).
Proof.
  split; [exact inside_valid|].
  exact (zone_violations_stores (H := Reference.runtime) Site.db "cam-1" [inside]
           inside_valid).
Defined.

Lemma detect_endpoint_keeps_limit_witness :
  within_limit Site.db Site.guest
  ∧ ∃ response db',
      result (detect.detect_objects (H := Reference.runtime) Site.yolo Site.db (Return tt)
                "cam-2" Site.guest)
      = Return (response, db')
      ∧ within_limit db' Site.guest
      ∧ Session.users db' = Session.users Site.db
      ∧ Session.zones db' = Session.zones Site.db.
Proof.
  assert (Hlimit : within_limit Site.db Site.guest) by (unfold within_limit; simpl; lia).
  split; [exact Hlimit|].
  exact (detect_endpoint_keeps_limit (H := Reference.runtime) Site.yolo Site.db (Return tt)
           "cam-2" Site.guest Hlimit).
Defined.

Lemma detect_endpoint_foreign_camera_witness :
  crud.get_camera Site.db "cam-1" = Some Site.camera
  ∧ Camera.user_id Site.camera ≠ User.id Site.guest
  ∧ ∃ body db',
      result (detect.detect_objects (H := Reference.runtime) Site.yolo Site.db (Return tt)
                "cam-1" Site.guest)
      = Return (Respond 200 body, db')
      ∧ DetectionResponse.alerts body
        = expected_alerts (H := Reference.runtime) (DetectionResponse.detections body)
            (crud.get_camera_zones Site.db "cam-1" true)
      ∧ (∃ rows, Session.alerts db' = Session.alerts Site.db ++ rows
                 ∧ Forall2 (stored_as "cam-1") rows (DetectionResponse.alerts body))
      ∧ crud.get_camera db' "cam-1"
        = Some (Camera.mk "cam-1" "Camera cam-1" 1 None true 0 (Some 5)).
Proof.
  assert (Hforeign : Camera.user_id Site.camera ≠ User.id Site.guest) by (simpl; lia).
  assert (Hroom : Z.of_nat (length (crud.get_user_cameras Site.db (User.id Site.guest)))
                  < User.cameras_allowed Site.guest) by (simpl; lia).
  split; [reflexivity|]. split; [exact Hforeign|].
  exact (detect_endpoint_foreign_camera (H := Reference.runtime) Site.yolo Site.db tt
           "cam-1" Site.camera Site.guest eq_refl Hforeign Hroom).
Defined.

Lemma get_current_user_bearer_witness :
  has_space "key-1" = false
  ∧ dependencies.get_current_user (Some "Bearer key-1") Site.db
    = match auth_service.verify_api_key Site.db "key-1" with
      | Some user => inr user
      | None => inl (dependencies.unauthorized "Invalid or inactive API key")
      end.
Proof.
  split; [reflexivity|].
  apply (get_current_user_bearer Site.db "key-1"); [discriminate|reflexivity].
Defined.

Lemma create_user_then_verify_witness :
  ("new@example.com" ∉ (User.email <$> Session.users Site.db))
  ∧ crud.get_user_by_api_key Site.db "key-3" = None
  ∧ let '(user, db') := crud.create_user Site.db "new@example.com" "key-3" "free" 2 in
    (User.id user ∉ (User.id <$> Session.users Site.db))
    ∧ auth_service.verify_api_key db' "key-3" = Some user
    ∧ (∀ key, key ≠ "key-3" →
              auth_service.verify_api_key db' key = auth_service.verify_api_key Site.db key)
    ∧ ("key-3" ≠ "" → has_space "key-3" = false →
       dependencies.get_current_user (Some "Bearer key-3") db' = inr user).
Proof.
  assert (Hemail : "new@example.com" ∉ (User.email <$> Session.users Site.db)).
  { cbn. rewrite !not_elem_of_cons. repeat split; [discriminate..|]. apply not_elem_of_nil. }
  split; [exact Hemail|]. split; [reflexivity|].
  exact (create_user_then_verify Site.db "new@example.com" "key-3" "free" 2 Hemail eq_refl).
Defined.

Lemma post_zone_then_get_zones_witness :
  ZoneCreate.validate Site.gate = true
  ∧ ∃ listed,
      mapM (zones.zone_response (H := Reference.runtime))
        (crud.get_camera_zones Site.db "cam-1" false) = Return listed
      ∧ ∃ response db',
          zones.post_zone (H := Reference.runtime) Site.db "cam-1" Site.gate Site.owner
          = (Respond 201 response, db')
          ∧ (ZoneResponse.id response ∉ (Zone.id <$> Session.zones Site.db))
          ∧ ZoneResponse.camera_id response = "cam-1"
          ∧ ZoneResponse.name response = ZoneCreate.name Site.gate
          ∧ ZoneResponse.coordinates response = ZoneCreate.coordinates Site.gate
          ∧ ZoneResponse.alert_type response = ZoneCreate.alert_type Site.gate
          ∧ ZoneResponse.active response = ZoneCreate.active Site.gate
          ∧ ZoneResponse.active_hours response = ZoneCreate.active_hours Site.gate
          ∧ zones.get_zones (H := Reference.runtime) db' "cam-1" Site.owner
            = (Respond 200 (listed ++ [response]), db').
Proof.
  split; [reflexivity|]. eexists. split; [vm_compute; reflexivity|].
  apply (post_zone_then_get_zones (H := Reference.runtime) Site.db "cam-1" Site.gate
           Site.owner).
  - reflexivity.
  - intros camera Hcamera. vm_compute in Hcamera. injection Hcamera as <-. reflexivity.
  - vm_compute. reflexivity.
  - vm_compute. reflexivity.
Defined.

Lemma zone_endpoints_refuse_foreign_camera_witness :
  crud.get_camera Site.db "cam-1" = Some Site.camera
  ∧ Camera.user_id Site.camera ≠ User.id Site.guest
  ∧ (∀ body, ∃ e, zones.create_zone (H := Reference.runtime) Site.db "cam-1" body Site.guest
                  = (Reject e, Site.db)
                  ∧ HTTPException.status_code e = 403)
  ∧ (∀ body, ZoneCreate.validate body = true →
             ∃ e, zones.post_zone (H := Reference.runtime) Site.db "cam-1" body Site.guest
                  = (Reject e, Site.db)
                  ∧ HTTPException.status_code e = 403)
  ∧ (∃ e, zones.get_zones (H := Reference.runtime) Site.db "cam-1" Site.guest
          = (Reject e, Site.db)
          ∧ HTTPException.status_code e = 403)
  ∧ (∀ zone_id zone, crud.get_zone Site.db zone_id = Some zone →
                     Zone.camera_id zone = "cam-1" →
                     ∃ e, zones.delete_zone Site.db "cam-1" zone_id Site.guest
                          = (Reject e, Site.db)
                          ∧ HTTPException.status_code e = 403).
Proof.
  assert (Hforeign : Camera.user_id Site.camera ≠ User.id Site.guest) by (simpl; lia).
  split; [reflexivity|]. split; [exact Hforeign|].
  exact (zone_endpoints_refuse_foreign_camera (H := Reference.runtime) Site.db "cam-1"
           Site.camera Site.guest eq_refl Hforeign).
Defined.

Lemma stored_coordinates_round_trip_witness :
  Forall (λ row, length row = 2%nat) (ZoneCreate.coordinates Site.gate)
  ∧ parse_zone_coordinates (H := Reference.runtime)
      (Zone.coordinates_json
         (crud.create_zone (H := Reference.runtime) Site.db "cam-1" "gate"
            (ZoneCreate.coordinates Site.gate) "intrusion" true None).1)
    = (Return (point_of_row <$> ZoneCreate.coordinates Site.gate), []).
Proof.
  assert (Hrows : Forall (λ row, length row = 2%nat) (ZoneCreate.coordinates Site.gate))
    by (repeat constructor).
  split; [exact Hrows|].
  apply (stored_coordinates_round_trip (H := Reference.runtime) Site.db "cam-1" "gate"
           (ZoneCreate.coordinates Site.gate) "intrusion" true None);
    [vm_compute; reflexivity|exact Hrows].
Defined.

Lemma ill_shaped_zone_never_alerts_witness :
  ZoneCreate.validate Site.ramp = true
  ∧ Exists (λ row, length row ≠ 2%nat) (ZoneCreate.coordinates Site.ramp)
  ∧ ∃ response db' zone,
      zones.post_zone (H := Reference.runtime) Site.db "cam-1" Site.ramp Site.owner
      = (Respond 201 response, db')
      ∧ crud.get_zone db' (ZoneResponse.id response) = Some zone
      ∧ Zone.active zone = ZoneCreate.active Site.ramp
      ∧ result (parse_zone_coordinates (H := Reference.runtime) (Zone.coordinates_json zone))
        = Return []
      ∧ result (check [inside] [zone]) = Return []
      ∧ (ZoneCreate.active Site.ramp = true →
         Warning_invalid_coordinates (ZoneResponse.id response)
         ∈ logged (check [inside] [zone])).
Proof.
  assert (Hrows : Exists (λ row, length row ≠ 2%nat) (ZoneCreate.coordinates Site.ramp))
    by (left; simpl; lia).
  split; [reflexivity|]. split; [exact Hrows|].
  apply (ill_shaped_zone_never_alerts (H := Reference.runtime) Site.db "cam-1" Site.ramp
           Site.owner [inside]).
  - reflexivity.
  - intros camera Hcamera. vm_compute in Hcamera. injection Hcamera as <-. reflexivity.
  - vm_compute. reflexivity.
  - vm_compute. reflexivity.
  - exact Hrows.
Defined.
